(** * analyze_pcd.py: header lexing, schema, row geometry and sample decoding

    A shallow embedding of [analyze_pcd_file] (src/analyze_pcd.py) and the
    properties of its header lexer, directive dispatch, row geometry and
    sample-record decoder; then the searches for a free port of server.py
    ([find_available_port]) and run.py ([start_server]).

    Conventions.
    - A file is its byte content; the open handle [f] is the content plus a
      cursor.  [os.path.getsize] is the length of the content.
    - A Python [str] is a list of code points ([N]); a [bytes] value is a
      list of [Byte.byte].
    - The dictionary [header_info] only ever holds eight fixed keys with
      values of different types; it is a record of options, [None] standing
      for an absent key.
    - Python exceptions are values of [exn]; code that can raise returns
      [result].
    - What the function prints is collected in a [report]; the exact text of
      the messages is not modelled, their content is.  Printing itself is
      taken to succeed: the model gives the values the code computes and
      prints.  (CPython from 3.11 on refuses, with [ValueError], to format an
      integer of more than 4300 digits unless it is configured otherwise; a
      stride, offset or span that long stops the geometry step at line 67 or
      74.  Statements about that step speak of the values it computes and of
      the runs that complete.) *)

From Stdlib Require Import ZArith NArith Lia Bool String Ascii.
From Stdlib Require Init.Byte.
From stdpp Require Import base list option numbers.

Local Open Scope Z_scope.

(** ** Bytes and text *)

Abbreviation byte := Byte.byte.

Definition char := N.
Definition str := list char.

(** A string literal of the source, as code points. *)
Definition lit (s : string) : str :=
  map N_of_ascii (list_ascii_of_string s).

Definition byte_val (b : byte) : Z := Z.of_N (Byte.to_N b).

(** The byte whose value is [n mod 256]. *)
Definition byte_of_Z (n : Z) : byte :=
  match Byte.of_N (Z.to_N (n mod 256)) with
  | Some b => b
  | None => Byte.x00
  end.

(** *** [bytes.decode('utf-8', errors='ignore')]

    Well-formed sequences (Unicode table 3-7) yield their code point; a byte
    that starts no well-formed sequence is dropped and decoding resumes at
    the next byte.  CPython drops the lead byte together with the
    continuation bytes it had accepted; those bytes start no sequence
    themselves, so the result is the same. *)

Definition in_range (lo hi c : N) : bool := ((lo <=? c) && (c <=? hi))%N.

Definition is_cont (c : N) : bool := in_range 128 191 c.

Definition cont_bits (c : N) : N := (c - 128)%N.

Definition utf8_valid2 (c0 c1 : N) : bool :=
  in_range 194 223 c0 && is_cont c1.

Definition utf8_valid3 (c0 c1 c2 : N) : bool :=
  ((c0 =? 224)%N && in_range 160 191 c1
   || in_range 225 236 c0 && is_cont c1
   || (c0 =? 237)%N && in_range 128 159 c1
   || in_range 238 239 c0 && is_cont c1)
  && is_cont c2.

Definition utf8_valid4 (c0 c1 c2 c3 : N) : bool :=
  ((c0 =? 240)%N && in_range 144 191 c1
   || in_range 241 243 c0 && is_cont c1
   || (c0 =? 244)%N && in_range 128 143 c1)
  && is_cont c2 && is_cont c3.

Definition utf8_cp2 (c0 c1 : N) : char :=
  ((c0 - 192) * 64 + cont_bits c1)%N.

Definition utf8_cp3 (c0 c1 c2 : N) : char :=
  ((c0 - 224) * 4096 + cont_bits c1 * 64 + cont_bits c2)%N.

Definition utf8_cp4 (c0 c1 c2 c3 : N) : char :=
  ((c0 - 240) * 262144 + cont_bits c1 * 4096 + cont_bits c2 * 64
   + cont_bits c3)%N.

Fixpoint decode_ignore (bs : list byte) : str :=
  match bs with
  | [] => []
  | b0 :: t0 =>
    let c0 := Byte.to_N b0 in
    if (c0 <? 128)%N then c0 :: decode_ignore t0
    else
      match t0 with
      | [] => []
      | b1 :: t1 =>
        let c1 := Byte.to_N b1 in
        if utf8_valid2 c0 c1 then utf8_cp2 c0 c1 :: decode_ignore t1
        else
          match t1 with
          | [] => decode_ignore t0
          | b2 :: t2 =>
            let c2 := Byte.to_N b2 in
            if utf8_valid3 c0 c1 c2 then utf8_cp3 c0 c1 c2 :: decode_ignore t2
            else
              match t2 with
              | [] => decode_ignore t0
              | b3 :: t3 =>
                let c3 := Byte.to_N b3 in
                if utf8_valid4 c0 c1 c2 c3
                then utf8_cp4 c0 c1 c2 c3 :: decode_ignore t3
                else decode_ignore t0
              end
          end
      end
  end.

(** *** Whitespace, [str.strip()], [str.split()], [str.startswith] *)

(** [Py_UNICODE_ISSPACE]: the characters [strip()] and [split()] treat as
    white space. *)
Definition isspace (c : char) : bool :=
  in_range 9 13 c || in_range 28 32 c
  || (c =? 133)%N || (c =? 160)%N || (c =? 5760)%N
  || in_range 8192 8202 c || (c =? 8232)%N || (c =? 8233)%N
  || (c =? 8239)%N || (c =? 8287)%N || (c =? 12288)%N.

Fixpoint lstrip (s : str) : str :=
  match s with
  | [] => []
  | c :: s' => if isspace c then lstrip s' else s
  end.

Definition rstrip (s : str) : str := rev (lstrip (rev s)).

Definition strip (s : str) : str := rstrip (lstrip s).

(** [split_from cur s]: the words of [s], [cur] being the word under
    construction. *)
Fixpoint split_from (cur : str) (s : str) : list str :=
  match s with
  | [] => match cur with [] => [] | _ => [cur] end
  | c :: s' =>
    if isspace c
    then match cur with
         | [] => split_from [] s'
         | _ => cur :: split_from [] s'
         end
    else split_from (cur ++ [c]) s'
  end.

Definition split (s : str) : list str := split_from [] s.

Fixpoint startswith (s prefix : str) {struct prefix} : bool :=
  match prefix, s with
  | [], _ => true
  | _ :: _, [] => false
  | p :: prefix', c :: s' => (p =? c)%N && startswith s' prefix'
  end.

Definition str_eqb (a b : str) : bool := bool_decide (a = b).

(** ** Exceptions *)

Inductive exn : Set :=
  | KeyError | IndexError | ValueError | OverflowError | UnboundLocalError
  | StructError.

Inductive result (A : Type) : Type :=
  | Ok (a : A)
  | Raise (e : exn).
Arguments Ok {A} a.
Arguments Raise {A} e.

#[global] Instance result_ret : MRet result := fun A a => Ok a.
#[global] Instance result_bind : MBind result := fun A B k m =>
  match m with
  | Ok a => k a
  | Raise e => Raise e
  end.

(** [l[i]] for an index that is not negative. *)
Definition index {A} (l : list A) (i : nat) : result A :=
  match l !! i with
  | Some a => Ok a
  | None => Raise IndexError
  end.

(** [d[key]] on a key of [header_info]. *)
Definition getitem {A} (entry : option A) : result A :=
  match entry with
  | Some a => Ok a
  | None => Raise KeyError
  end.

(** ** The open file *)

Record file : Type := { content : list byte; pos : nat }.

Definition open (content : list byte) : file :=
  {| content := content; pos := 0 |}.

Definition getsize (content : list byte) : Z := Z.of_nat (length content).

Definition tell (f : file) : Z := Z.of_nat (pos f).

Definition seek (target : Z) (f : file) : file :=
  {| content := content f; pos := Z.to_nat target |}.

Definition is_newline (b : byte) : bool := (Byte.to_N b =? 10)%N.

(** The bytes up to and including the first line feed, or all of them. *)
Fixpoint first_line (bs : list byte) : list byte :=
  match bs with
  | [] => []
  | b :: bs' => if is_newline b then [b] else b :: first_line bs'
  end.

Definition readline (f : file) : list byte * file :=
  let line := first_line (drop (pos f) (content f)) in
  (line, {| content := content f; pos := pos f + length line |}).

(** [f.read(size)] on a buffered binary file: [size = -1] reads to the end,
    a smaller [size] is refused, with [OverflowError] when it does not fit a
    64-bit [ssize_t].  (A [size] above that range never reaches [read]: the
    test of line 100 stops the loop for any [row_size] above the file
    size.) *)
Definition read (size : Z) (f : file) : result (list byte * file) :=
  if size <? - 2 ^ 63 then Raise OverflowError
  else if size <? -1 then Raise ValueError
  else
    let rest := drop (pos f) (content f) in
    let data := if size =? -1 then rest else take (Z.to_nat size) rest in
    Ok (data, {| content := content f; pos := pos f + length data |}).

(** [b[lo:hi]] with Python's treatment of negative and overlong bounds. *)
Definition clamp (len x : Z) : Z :=
  if x <? 0 then Z.max 0 (x + len) else Z.min x len.

Definition slice (data : list byte) (lo hi : Z) : list byte :=
  let len := Z.of_nat (length data) in
  let lo' := clamp len lo in
  let hi' := clamp len hi in
  take (Z.to_nat (hi' - lo')) (drop (Z.to_nat lo') data).

(** ** [struct.unpack] *)

(** A decoded value.  [struct.unpack('<f', ...)] yields a Python float, a
    double that holds a single-precision number; it is given here by its
    single-precision bits (sign, exponent and fraction as IEEE 754 lays them
    out), the 32 bits [struct.pack('<f', ...)] writes for it.  An unsigned
    byte is given by its value. *)
Inductive value : Set :=
  | VFloat (bits : Z)
  | VUInt8 (n : Z).

(** A NaN has all eight exponent bits set and a fraction that is not zero;
    it is signalling when the top bit of the fraction, bit 22, is clear. *)
Definition is_nan32 (bits : Z) : bool :=
  (Z.land (Z.shiftr bits 23) 255 =? 255)
  && negb (Z.land bits (2 ^ 23 - 1) =? 0).

Definition is_snan (bits : Z) : bool :=
  is_nan32 bits && negb (Z.testbit bits 22).

(** The single-precision bits of the Python float read from the 32 bits
    [bits].  Widening the single to a double keeps every number, both zeros,
    the infinities and the quiet NaNs as they are, and turns a signalling
    NaN into the quiet NaN with the same sign and payload: bit 22 is set. *)
Definition quieted (bits : Z) : Z :=
  if is_nan32 bits then Z.lor bits (2 ^ 22) else bits.

(** The number written by [data], least significant byte first. *)
Fixpoint le_bits (data : list byte) : Z :=
  match data with
  | [] => 0
  | b :: data' => byte_val b + 256 * le_bits data'
  end.

(** [struct.unpack('<f', data)[0]] *)
Definition unpack_f (data : list byte) : result value :=
  if bool_decide (length data = 4%nat)
  then Ok (VFloat (quieted (le_bits data)))
  else Raise StructError.

(** [struct.unpack('<B', data)[0]] *)
Definition unpack_B (data : list byte) : result value :=
  if bool_decide (length data = 1%nat) then Ok (VUInt8 (le_bits data))
  else Raise StructError.

(** The four bytes of a 32-bit pattern, least significant first
    ([struct.pack('<I', bits)]); for a float held as [VFloat bits] they are
    [struct.pack('<f', x)].  Used to build rows with known content. *)
Definition pack_f (bits : Z) : list byte :=
  [ byte_of_Z bits; byte_of_Z (Z.shiftr bits 8);
    byte_of_Z (Z.shiftr bits 16); byte_of_Z (Z.shiftr bits 24) ].

(** ** Header lexer (lines 25-33) *)

Definition is_sentinel (line_str : str) : bool :=
  str_eqb line_str (lit "DATA binary_compressed")
  || str_eqb line_str (lit "DATA binary")
  || str_eqb line_str (lit "DATA ascii").

(** The [while True] loop.  Each round consumes a line; [fuel] bounds the
    number of rounds, [None] means the bound was too small. *)
Fixpoint read_header_loop (fuel : nat) (f : file) (header_lines : list str)
  : option (list str * file) :=
  match fuel with
  | O => None
  | S fuel' =>
    let '(line, f') := readline f in
    match line with
    | [] => Some (header_lines, f')
    | _ =>
      let line_str := strip (decode_ignore line) in
      let header_lines' := header_lines ++ [line_str] in
      if is_sentinel line_str then Some (header_lines', f')
      else read_header_loop fuel' f' header_lines'
    end
  end.

(** A non-empty line moves the cursor, so one round more than there are
    bytes left is always enough (lemma [read_header_loop_total]). *)
Definition read_header (f : file) : list str * file :=
  match read_header_loop (S (length (content f) - pos f)) f [] with
  | Some r => r
  | None => ([], f)
  end.

(** ** The dictionary [header_info] and the report *)

Record hinfo : Type := {
  fields : option (list str);
  sizes : option (list Z);
  types : option (list str);
  counts : option (list Z);
  width : option Z;
  height : option Z;
  points : option Z;
  data_type : option str
}.

Definition empty_info : hinfo :=
  {| fields := None; sizes := None; types := None; counts := None;
     width := None; height := None; points := None; data_type := None |}.

Definition set_fields (v : list str) (h : hinfo) : hinfo :=
  {| fields := Some v; sizes := sizes h; types := types h; counts := counts h;
     width := width h; height := height h; points := points h;
     data_type := data_type h |}.
Definition set_sizes (v : list Z) (h : hinfo) : hinfo :=
  {| fields := fields h; sizes := Some v; types := types h; counts := counts h;
     width := width h; height := height h; points := points h;
     data_type := data_type h |}.
Definition set_types (v : list str) (h : hinfo) : hinfo :=
  {| fields := fields h; sizes := sizes h; types := Some v; counts := counts h;
     width := width h; height := height h; points := points h;
     data_type := data_type h |}.
Definition set_counts (v : list Z) (h : hinfo) : hinfo :=
  {| fields := fields h; sizes := sizes h; types := types h; counts := Some v;
     width := width h; height := height h; points := points h;
     data_type := data_type h |}.
Definition set_width (v : Z) (h : hinfo) : hinfo :=
  {| fields := fields h; sizes := sizes h; types := types h; counts := counts h;
     width := Some v; height := height h; points := points h;
     data_type := data_type h |}.
Definition set_height (v : Z) (h : hinfo) : hinfo :=
  {| fields := fields h; sizes := sizes h; types := types h; counts := counts h;
     width := width h; height := Some v; points := points h;
     data_type := data_type h |}.
Definition set_points (v : Z) (h : hinfo) : hinfo :=
  {| fields := fields h; sizes := sizes h; types := types h; counts := counts h;
     width := width h; height := height h; points := Some v;
     data_type := data_type h |}.
Definition set_data_type (v : str) (h : hinfo) : hinfo :=
  {| fields := fields h; sizes := sizes h; types := types h; counts := counts h;
     width := width h; height := height h; points := points h;
     data_type := Some v |}.

(** The report: what a run that returns normally has printed. *)

Definition record := list (str * value).

Inductive format_note : Set :=
  | CompressedBinary   (* with the warning that the data needs decompression *)
  | Binary
  | Ascii.

Record report : Type := {
  r_file_size : Z;
  r_header_lines : list str;
  r_header_info : hinfo;
  (** the local [row_size]; [None] while it is unbound *)
  r_row_size : option Z;
  (** the printed (field, offset, size) rows *)
  r_offsets : list (str * Z * Z);
  r_data_start : Z;
  r_data_size : Z;
  r_format : format_note;
  (** [None]: the sample reader was not entered; otherwise the points it
      printed and the exception its handler caught, if any *)
  r_points : option (list record * option exn)
}.

Inductive outcome : Type :=
  | FileNotFound
  | Raised (e : exn)       (* an exception left the function *)
  | Done (r : report).

(** ** Row geometry (lines 65-75) *)

(** [sum(s * c for s, c in zip(sizes, counts))] *)
Fixpoint row_size_of (sizes counts : list Z) : Z :=
  match sizes, counts with
  | s :: sizes', c :: counts' => s * c + row_size_of sizes' counts'
  | _, _ => 0
  end.

(** [header_info['sizes'][i] * header_info['counts'][i]] (lines 73, 112) *)
Definition field_size_at (header_info : hinfo) (i : nat) : result Z :=
  sizes ← getitem (sizes header_info);
  s ← index sizes i;
  counts ← getitem (counts header_info);
  c ← index counts i;
  Ok (s * c).

(** The loop of lines 72-75 from index [i] on: the printed rows. *)
Fixpoint field_offsets (i : nat) (fields : list str) (header_info : hinfo)
    (current_offset : Z) : result (list (str * Z * Z)) :=
  match fields with
  | [] => Ok []
  | field :: fields' =>
    field_size ← field_size_at header_info i;
    rows ← field_offsets (S i) fields' header_info
             (current_offset + field_size);
    Ok ((field, current_offset, field_size) :: rows)
  end.

(** Lines 65-75: the binding of [row_size] and the printed offsets. *)
Definition row_geometry (header_info : hinfo)
  : result (option Z * list (str * Z * Z)) :=
  match sizes header_info, counts header_info with
  | Some sizes, Some counts =>
    let row_size := row_size_of sizes counts in
    fields ← getitem (fields header_info);
    rows ← field_offsets 0 fields header_info 0;
    Ok (Some row_size, rows)
  | _, _ => Ok (None, [])
  end.

(** ** Sample reader (lines 93-125) *)

(** Lines 115-120 for one field: what is printed for it. *)
Definition decode_field (field : str) (field_size : Z) (field_data : list byte)
  : result record :=
  if field_size =? 4 then
    v ← unpack_f field_data; Ok [(field, v)]
  else if field_size =? 1 then
    v ← unpack_B field_data; Ok [(field, v)]
  else Ok [].

(** The loop of lines 111-122 from index [j] on: the printed fields of the
    point, and the exception that ended the loop, if any. *)
Fixpoint decode_fields (j : nat) (fields : list str) (header_info : hinfo)
    (row_data : list byte) (current_pos : Z) : record * option exn :=
  match fields with
  | [] => ([], None)
  | field :: fields' =>
    match field_size_at header_info j with
    | Raise e => ([], Some e)
    | Ok field_size =>
      let field_data :=
        slice row_data current_pos (current_pos + field_size) in
      match decode_field field field_size field_data with
      | Raise e => ([], Some e)
      | Ok printed =>
        let '(rest, e) := decode_fields (S j) fields' header_info row_data
                            (current_pos + field_size) in
        (printed ++ rest, e)
      end
    end
  end.

(** The body of the loop of line 99 once the row is read (lines 107-122). *)
Definition decode_point (header_info : hinfo) (row_data : list byte)
  : record * option exn :=
  match fields header_info with
  | None => ([], Some KeyError)
  | Some fields => decode_fields 0 fields header_info row_data 0
  end.

(** The loop of lines 99-122 over the indices [idxs]: the printed points and
    the exception that reached the handler of line 124, if any. *)
Fixpoint points_loop (idxs : list nat) (header_info : hinfo)
    (row_size : option Z) (data_start file_size : Z) (f : file)
  : list record * option exn :=
  match idxs with
  | [] => ([], None)
  | i :: idxs' =>
    match row_size with
    | None => ([], Some UnboundLocalError)
    | Some row_size =>
      if data_start + (Z.of_nat i + 1) * row_size >? file_size then ([], None)
      else
        match read row_size f with
        | Raise e => ([], Some e)
        | Ok (row_data, f') =>
          if Z.of_nat (length row_data) <? row_size then ([], None)
          else
            match decode_point header_info row_data with
            | (point, Some e) => ([point], Some e)
            | (point, None) =>
              let '(more, e) := points_loop idxs' header_info (Some row_size)
                                  data_start file_size f' in
              (point :: more, e)
            end
        end
    end
  end.

(** [header_info.get('points', 0)] *)
Definition declared_points (header_info : hinfo) : Z :=
  default 0 (points header_info).

(** [range(n)] *)
Definition range (n : Z) : list nat := seq 0 (Z.to_nat n).

(** Lines 95-125. *)
Definition read_points (header_info : hinfo) (row_size : option Z)
    (data_start file_size : Z) (f : file) : list record * option exn :=
  points_loop (range (Z.min 3 (declared_points header_info))) header_info
    row_size data_start file_size (seek data_start f).

Definition data_type_is (header_info : hinfo) (name : string) : bool :=
  bool_decide (data_type header_info = Some (lit name)).

(** Lines 84-90. *)
Definition format_of (header_info : hinfo) : format_note :=
  if data_type_is header_info "binary_compressed" then CompressedBinary
  else if data_type_is header_info "binary" then Binary
  else Ascii.

(** Line 93: [header_info.get('data_type') in ['binary', 'binary_compressed']] *)
Definition reads_points (header_info : hinfo) : bool :=
  data_type_is header_info "binary"
  || data_type_is header_info "binary_compressed".

(** Lines 64-125, everything after the header is parsed. *)
Definition analyze_parsed (file_size : Z) (header_lines : list str)
    (header_info : hinfo) (f : file) : outcome :=
  match row_geometry header_info with
  | Raise e => Raised e
  | Ok (row_size, offsets) =>
    let data_start := tell f in
    let data_size := file_size - data_start in
    Done {| r_file_size := file_size;
            r_header_lines := header_lines;
            r_header_info := header_info;
            r_row_size := row_size;
            r_offsets := offsets;
            r_data_start := data_start;
            r_data_size := data_size;
            r_format := format_of header_info;
            r_points :=
              if reads_points header_info
              then Some (read_points header_info row_size data_start
                           file_size f)
              else None |}
  end.

(** ** Schema builder (lines 41-58) and the whole function *)

Section Analysis.

(** [int(x)] for a [str]: the integer, or [None] for [ValueError].  Which
    digit characters and lengths CPython accepts is the interpreter's
    business; the development holds for any such function. *)
Variable py_int : str -> option Z.

Definition int (x : str) : result Z :=
  match py_int x with
  | Some n => Ok n
  | None => Raise ValueError
  end.

(** [[int(x) for x in xs]] *)
Fixpoint ints (xs : list str) : result (list Z) :=
  match xs with
  | [] => Ok []
  | x :: xs' => n ← int x; ns ← ints xs'; Ok (n :: ns)
  end.

(** One round of the loop of lines 42-58. *)
Definition parse_line (header_info : hinfo) (line : str) : result hinfo :=
  if startswith line (lit "FIELDS") then
    Ok (set_fields (drop 1 (split line)) header_info)
  else if startswith line (lit "SIZE") then
    v ← ints (drop 1 (split line)); Ok (set_sizes v header_info)
  else if startswith line (lit "TYPE") then
    Ok (set_types (drop 1 (split line)) header_info)
  else if startswith line (lit "COUNT") then
    v ← ints (drop 1 (split line)); Ok (set_counts v header_info)
  else if startswith line (lit "WIDTH") then
    x ← index (split line) 1; v ← int x; Ok (set_width v header_info)
  else if startswith line (lit "HEIGHT") then
    x ← index (split line) 1; v ← int x; Ok (set_height v header_info)
  else if startswith line (lit "POINTS") then
    x ← index (split line) 1; v ← int x; Ok (set_points v header_info)
  else if startswith line (lit "DATA") then
    x ← index (split line) 1; Ok (set_data_type x header_info)
  else Ok header_info.

Fixpoint parse_lines (header_info : hinfo) (header_lines : list str)
  : result hinfo :=
  match header_lines with
  | [] => Ok header_info
  | line :: rest =>
    header_info' ← parse_line header_info line; parse_lines header_info' rest
  end.

Definition parse_header (header_lines : list str) : result hinfo :=
  parse_lines empty_info header_lines.

(** [analyze_pcd_file] on the content of the file at [file_path], [None] when
    there is no such file. *)
Definition analyze_pcd_file (file : option (list byte)) : outcome :=
  match file with
  | None => FileNotFound
  | Some content =>
    let file_size := getsize content in
    let '(header_lines, f) := read_header (open content) in
    match parse_header header_lines with
    | Raise e => Raised e
    | Ok header_info => analyze_parsed file_size header_lines header_info f
    end
  end.

End Analysis.

(** *** An [int] for ASCII input

    Optional sign, then decimal digits, single underscores allowed between
    digits.  Used to run the analysis on concrete files. *)

Definition digit_of (c : char) : option Z :=
  if in_range 48 57 c then Some (Z.of_N c - 48) else None.

(** [digits_from acc after_digit s]: the digits of [s] appended to [acc];
    [after_digit] tells whether the previous character was a digit. *)
Fixpoint digits_from (acc : Z) (after_digit : bool) (s : str) : option Z :=
  match s with
  | [] => if after_digit then Some acc else None
  | c :: s' =>
    if (c =? 95)%N then
      if after_digit then digits_from acc false s' else None
    else
      match digit_of c with
      | Some d => digits_from (10 * acc + d) true s'
      | None => None
      end
  end.

Definition int_ascii (s : str) : option Z :=
  match s with
  | [] => None
  | c :: s' =>
    if (c =? 45)%N then Z.opp <$> digits_from 0 false s'
    else if (c =? 43)%N then digits_from 0 false s'
    else digits_from 0 false s
  end.

(** The bytes of an ASCII literal. *)
Definition bytes_of (s : string) : list byte := list_byte_of_string s.

(** ** Notions used to state the properties *)

(** The three lines that end a header. *)
Definition sentinels : list str :=
  [ lit "DATA binary_compressed"; lit "DATA binary"; lit "DATA ascii" ].

(** The terminator-delimited lines of a byte sequence, each with its line
    feed; the last one may lack it. *)
Fixpoint lines (bs : list byte) : list (list byte) :=
  match bs with
  | [] => []
  | b :: bs' =>
    if is_newline b then [b] :: lines bs'
    else match lines bs' with
         | [] => [[b]]
         | l :: ls => (b :: l) :: ls
         end
  end.

(** The text the lexer keeps for a raw line. *)
Definition line_text (line : list byte) : str := strip (decode_ignore line).

(** Header lines and number of bytes consumed when the raw lines are scanned
    up to the first sentinel. *)
Fixpoint scan (raw : list (list byte)) : list str * nat :=
  match raw with
  | [] => ([], 0%nat)
  | l :: raw' =>
    if is_sentinel (line_text l) then ([line_text l], length l)
    else let '(hl, n) := scan raw' in (line_text l :: hl, (length l + n)%nat)
  end.

(** The byte span of each field: [sizes[i] * counts[i]]. *)
Definition spans (sizes counts : list Z) : list Z := zip_with Z.mul sizes counts.

Definition Zsum (l : list Z) : Z := foldr Z.add 0 l.

(** Fields laid out one after the other from offset [off], without padding:
    name, offset and span of each. *)
Fixpoint layout (fields : list str) (sp : list Z) (off : Z)
  : list (str * Z * Z) :=
  match fields, sp with
  | field :: fields', s :: sp' => (field, off, s) :: layout fields' sp' (off + s)
  | _, _ => []
  end.

(** The float read from the four bytes at offset [off] of a row, least
    significant byte first, and the byte stored there. *)
Definition f32_at (row : list byte) (off : Z) : Z :=
  quieted (le_bits (take 4 (drop (Z.to_nat off) row))).

Definition u8_at (row : list byte) (off : Z) : Z :=
  from_option byte_val 0 (row !! Z.to_nat off).

(** What a field contributes to a decoded record, by its span alone: a
    float for 4 bytes, an unsigned byte for 1 byte, nothing otherwise. *)
Definition expected_field (row : list byte) (entry : str * Z * Z) : record :=
  let '(name, off, span) := entry in
  if span =? 4 then [(name, VFloat (f32_at row off))]
  else if span =? 1 then [(name, VUInt8 (u8_at row off))]
  else [].

(** An entry of a layout lies inside a row of [len] bytes. *)
Definition fits (len : Z) (entry : str * Z * Z) : Prop :=
  let '(_, off, span) := entry in 0 ≤ off ∧ 0 ≤ span ∧ off + span ≤ len.

(** The [m]-th full row of the data segment. *)
Definition row_at (content : list byte) (data_start stride : Z) (m : nat)
  : list byte :=
  take (Z.to_nat stride)
    (drop (Z.to_nat (data_start + Z.of_nat m * stride)) content).

(** The directives of the header, in the order the parser tests them, and
    the word each is recognised by. *)
Inductive directive : Set :=
  | FIELDS | SIZE | TYPE | COUNT | WIDTH | HEIGHT | POINTS | DATA.

Definition directives : list directive :=
  [FIELDS; SIZE; TYPE; COUNT; WIDTH; HEIGHT; POINTS; DATA].

Definition keyword (d : directive) : str :=
  match d with
  | FIELDS => lit "FIELDS"
  | SIZE => lit "SIZE"
  | TYPE => lit "TYPE"
  | COUNT => lit "COUNT"
  | WIDTH => lit "WIDTH"
  | HEIGHT => lit "HEIGHT"
  | POINTS => lit "POINTS"
  | DATA => lit "DATA"
  end.

(** The value a directive stores. *)
Inductive dvalue : Type :=
  | Names (l : list str)
  | Ints (l : list Z)
  | Int (n : Z)
  | Name (s : str).

(** What [header_info] holds for a directive. *)
Definition entry (d : directive) (h : hinfo) : option dvalue :=
  match d with
  | FIELDS => Names <$> fields h
  | SIZE => Ints <$> sizes h
  | TYPE => Names <$> types h
  | COUNT => Ints <$> counts h
  | WIDTH => Int <$> width h
  | HEIGHT => Int <$> height h
  | POINTS => Int <$> points h
  | DATA => Name <$> data_type h
  end.

(** The value a line gives to directive [d]: the words after the first for
    the list directives, the second word for the others. *)
Definition values_of (py_int : str → option Z) (d : directive) (line : str)
  : result dvalue :=
  match d with
  | FIELDS | TYPE => Ok (Names (drop 1 (split line)))
  | SIZE | COUNT => v ← ints py_int (drop 1 (split line)); Ok (Ints v)
  | WIDTH | HEIGHT | POINTS =>
    x ← index (split line) 1; v ← int py_int x; Ok (Int v)
  | DATA => x ← index (split line) 1; Ok (Name x)
  end.

(** ** Sample files *)

Definition newline : string := String (ascii_of_nat 10) EmptyString.

(** The bytes of a header with the given lines, each ended by a line feed. *)
Definition header_bytes (header : list string) : list byte :=
  flat_map (λ l, bytes_of (l ++ newline)) header.

(** The header of the scenarios: three 4-byte fields, two declared points. *)
Definition xyz_header (encoding : string) : list string :=
  [ "FIELDS x y z"; "SIZE 4 4 4"; "COUNT 1 1 1"; "POINTS 2";
    "DATA " ++ encoding ]%string.

(** Two (x, y, z) triples, 24 bytes. *)
Definition xyz_payload : list byte :=
  pack_f 1065353216 ++ pack_f 1073741824 ++ pack_f 1077936128
  ++ pack_f 1082130432 ++ pack_f 1084227584 ++ pack_f 1086324736.

Definition xyz_file (encoding : string) : list byte :=
  header_bytes (xyz_header encoding) ++ xyz_payload.

Definition xyz_info (encoding : string) : hinfo :=
  {| fields := Some [lit "x"; lit "y"; lit "z"];
     sizes := Some [4; 4; 4];
     types := None;
     counts := Some [1; 1; 1];
     width := None;
     height := None;
     points := Some 2;
     data_type := Some (lit encoding) |}.

Definition xyz_records : list record :=
  [ [ (lit "x", VFloat 1065353216); (lit "y", VFloat 1073741824);
      (lit "z", VFloat 1077936128) ];
    [ (lit "x", VFloat 1082130432); (lit "y", VFloat 1084227584);
      (lit "z", VFloat 1086324736) ] ].

(** Headers whose FIELDS, SIZE and COUNT disagree or are incomplete. *)
Definition no_fields_file : list byte :=
  header_bytes ["SIZE 4"; "COUNT 1"; "DATA ascii"]%string.

Definition short_size_file : list byte :=
  header_bytes ["FIELDS x y"; "SIZE 4"; "COUNT 1"; "DATA ascii"]%string.

Definition long_size_file : list byte :=
  header_bytes ["FIELDS x"; "SIZE 1 1"; "COUNT 1 1"; "POINTS 1";
                "DATA binary"]%string
  ++ bytes_of "AB".

(** Scenario C of the specification: the xyz header without its COUNT
    line. *)
Definition no_count_file : list byte :=
  header_bytes ["FIELDS x y z"; "SIZE 4 4 4"; "POINTS 2"; "DATA binary"]%string
  ++ xyz_payload.

Definition no_count_info : hinfo :=
  {| fields := Some [lit "x"; lit "y"; lit "z"];
     sizes := Some [4; 4; 4];
     types := None; counts := None; width := None; height := None;
     points := Some 2;
     data_type := Some (lit "binary") |}.

(** The xyz header without its POINTS line. *)
Definition no_points_file : list byte :=
  header_bytes ["FIELDS x y z"; "SIZE 4 4 4"; "COUNT 1 1 1";
                "DATA binary"]%string
  ++ xyz_payload.

(** The report for the xyz file with encoding binary. *)
Definition xyz_report : report :=
  {| r_file_size := 81;
     r_header_lines := map lit (xyz_header "binary");
     r_header_info := xyz_info "binary";
     r_row_size := Some 12;
     r_offsets := [(lit "x", 0, 4); (lit "y", 4, 4); (lit "z", 8, 4)];
     r_data_start := 57;
     r_data_size := 24;
     r_format := Binary;
     r_points := Some (xyz_records, None) |}.

(** 100000 declared points in front of a single 12-byte row. *)
Definition one_row_info : hinfo :=
  {| fields := Some [lit "x"; lit "y"; lit "z"];
     sizes := Some [4; 4; 4];
     types := None;
     counts := Some [1; 1; 1];
     width := None;
     height := None;
     points := Some 100000;
     data_type := Some (lit "binary") |}.

Definition one_row_file : file :=
  {| content := bytes_of "header" ++ take 12 xyz_payload; pos := 6 |}.

(** A decoded value is what its format can hold: 32 bits for a float, 8 for
    an unsigned byte. *)
Definition value_ok (v : value) : Prop :=
  match v with
  | VFloat bits => 0 ≤ bits < 2 ^ 32
  | VUInt8 n => 0 ≤ n < 256
  end.







#[global] Instance directive_eq_dec : EqDecision directive.
Proof. solve_decision. Defined.

(** At most one line of the header starts with the word of any directive. *)
Definition one_line_each (header_lines : list str) : Prop :=
  ∀ d, (length (filter (λ l, startswith l (keyword d) = true) header_lines)
        ≤ 1)%nat.





(** ** server.py and run.py: the search for a free port *)

(** One attempt to bind a port.  A port outside 0..65535 is refused by the
    socket module with [OverflowError] before the system is asked; otherwise
    [can_bind] tells whether the system grants the port, and a refusal is an
    [OSError].  Both searches try a port at most once, so one answer per port
    is all they can observe. *)
Inductive attempt : Set :=
  | Bound
  | Refused        (* OSError *)
  | OutOfRange.    (* OverflowError *)

Definition try_bind (can_bind : Z → bool) (port : Z) : attempt :=
  if (port <? 0) || (65535 <? port) then OutOfRange
  else if can_bind port then Bound
  else Refused.

Inductive search : Set :=
  | Found (port : Z)
  | NoPort         (* none of the ports tried was granted *)
  | PortError.     (* an [OverflowError] left the search *)

(** server.py, lines 30-38: the loop over the ports still to try. *)
Fixpoint find_port_in (can_bind : Z → bool) (ports : list Z) : search :=
  match ports with
  | [] => NoPort   (* [raise RuntimeError] *)
  | port :: rest =>
    match try_bind can_bind port with
    | Bound => Found port
    | Refused => find_port_in can_bind rest
    | OutOfRange => PortError
    end
  end.

(** [OpenDriveServer.find_available_port] *)
Definition find_available_port (can_bind : Z → bool) (start_port : Z)
  : search :=
  find_port_in can_bind (seqZ start_port 100).

(** run.py, lines 21-29: the [while True] loop of [start_server]; [fuel]
    bounds the number of rounds. *)
Fixpoint start_server_loop (fuel : nat) (can_bind : Z → bool)
    (original_port port : Z) : option search :=
  match fuel with
  | O => None
  | S fuel' =>
    match try_bind can_bind port with
    | Bound => Some (Found port)
    | OutOfRange => Some PortError
    | Refused =>
      let port := port + 1 in
      if port >? original_port + 50 then Some NoPort
      else start_server_loop fuel' can_bind original_port port
    end
  end.

(** The loop started at [original_port]; 51 rounds are always enough (lemma
    [start_server_loop_ports]). *)
Definition start_server_search (can_bind : Z → bool) (port : Z) : search :=
  default NoPort (start_server_loop 51 can_bind port port).

(** What a search over the ports from [lo] up to, but not including, [hi]
    may answer: the lowest port that is granted, after refusals only; no
    port when all are refused; an error at the first port outside
    0..65535, after refusals only. *)
Definition first_granted (can_bind : Z → bool) (lo hi : Z) (s : search)
  : Prop :=
  match s with
  | Found p =>
    lo ≤ p < hi ∧ try_bind can_bind p = Bound
    ∧ ∀ q, lo ≤ q < p → try_bind can_bind q = Refused
  | NoPort => ∀ q, lo ≤ q < hi → try_bind can_bind q = Refused
  | PortError =>
    ∃ p, lo ≤ p < hi ∧ try_bind can_bind p = OutOfRange
         ∧ ∀ q, lo ≤ q < p → try_bind can_bind q = Refused
  end.

(** Sample inputs for the further properties. *)

(** A header whose DATA line is no sentinel: the lexer runs to the end. *)
Definition short_header_file : list byte :=
  header_bytes ["FIELDS x"; "SIZE 4"; "COUNT 1"; "POINTS 2";
                "DATA binary x"]%string.

(** A WIDTH line without a value. *)
Definition bad_width_file : list byte :=
  header_bytes ["FIELDS x"; "WIDTH"; "DATA ascii"]%string.

(** A float field and a byte field, in both orders. *)
Definition mixed_info (swapped : bool) : hinfo :=
  {| fields := Some (if swapped then [lit "i"; lit "x"]
                     else [lit "x"; lit "i"]);
     sizes := Some (if swapped then [1; 4] else [4; 1]);
     types := None;
     counts := Some [1; 1];
     width := None; height := None; points := None; data_type := None |}.

(** Ports below 8083 are taken. *)
Definition busy_below_8083 (port : Z) : bool := 8083 <=? port.



(** The white space of ASCII, as bytes. *)
Definition is_blank (b : byte) : bool :=
  (Byte.to_N b <? 128)%N && isspace (Byte.to_N b).

(** A header given a negative size. *)
Definition negative_size_file : list byte :=
  header_bytes ["FIELDS x"; "SIZE -4"; "COUNT 1"; "POINTS 1";
                "DATA binary"]%string
  ++ bytes_of "ABCD".

(** The xyz header with WIDTH, HEIGHT and TYPE entries. *)
Definition xyz_info_full : hinfo :=
  set_types [lit "F"; lit "F"; lit "F"]
    (set_height 1 (set_width 7 (xyz_info "binary"))).



(** The header bytes of the xyz file without the final line feed. *)
Definition xyz_front : list byte :=
  removelast (header_bytes (xyz_header "binary")).

Definition line_feed : byte := Byte.x0a.

Definition carriage_return : byte := Byte.x0d.

(** * Properties *)

(** ** Header lexer *)

Lemma is_sentinel_spec (s : str) : is_sentinel s = true ↔ s ∈ sentinels.
Proof.
  unfold is_sentinel, sentinels, str_eqb.
  rewrite !orb_true_iff, !bool_decide_eq_true, !elem_of_cons, elem_of_nil.
  tauto.
Qed.

Lemma is_sentinel_false (s : str) : is_sentinel s = false ↔ s ∉ sentinels.
Proof.
  rewrite <- is_sentinel_spec. destruct (is_sentinel s); split; congruence.
Qed.

Lemma first_line_nil (bs : list byte) : first_line bs = [] → bs = [].
Proof. destruct bs as [|b bs]; simpl; [done|]. by destruct (is_newline b). Qed.

Lemma first_line_prefix (bs : list byte) :
  bs = first_line bs ++ drop (length (first_line bs)) bs.
Proof.
  induction bs as [|b bs IH]; simpl; [done|].
  destruct (is_newline b); simpl; [by rewrite drop_0|].
  by rewrite <- IH.
Qed.

Lemma first_line_length (bs : list byte) :
  (length (first_line bs) ≤ length bs)%nat.
Proof.
  induction bs as [|b bs IH]; simpl; [lia|].
  destruct (is_newline b); simpl; lia.
Qed.

(** [lines] is what repeated [readline] yields. *)
Lemma lines_unfold (bs : list byte) :
  bs ≠ [] →
  lines bs = first_line bs :: lines (drop (length (first_line bs)) bs).
Proof.
  induction bs as [|b bs IH]; [done|]. intros _. simpl.
  destruct (is_newline b); simpl; [by rewrite drop_0|].
  destruct bs as [|b' bs]; [done|].
  rewrite IH by done. done.
Qed.

Lemma lines_concat (bs : list byte) : concat (lines bs) = bs.
Proof.
  induction bs as [|b bs IH]; simpl; [done|].
  destruct (is_newline b); simpl; [by rewrite IH|].
  destruct (lines bs) as [|l ls]; simpl in *; by rewrite <- IH.
Qed.

Lemma lines_nonempty (bs : list byte) : Forall (λ l, l ≠ []) (lines bs).
Proof.
  induction bs as [|b bs IH]; simpl; [constructor|].
  destruct (is_newline b); [by constructor|].
  destruct (lines bs) as [|l ls]; [by repeat constructor|].
  inversion IH; subst. by constructor.
Qed.

Lemma drop_drop_pos {A} (l : list A) (n m : nat) :
  drop m (drop n l) = drop (n + m) l.
Proof. by rewrite drop_drop. Qed.

(** The loop, started anywhere in the file with enough fuel, returns what
    [scan] computes from the lines that remain. *)
Lemma read_header_loop_scan (fuel : nat) (f : file) (acc : list str) :
  (length (drop (pos f) (content f)) < fuel)%nat →
  read_header_loop fuel f acc
  = Some (acc ++ (scan (lines (drop (pos f) (content f)))).1,
          {| content := content f;
             pos := pos f + (scan (lines (drop (pos f) (content f)))).2 |}).
Proof.
  revert f acc. induction fuel as [|fuel IH]; intros f acc Hfuel; [lia|].
  simpl. set (rest := drop (pos f) (content f)) in *.
  destruct (first_line rest) as [|b line] eqn:Hline.
  - apply first_line_nil in Hline. rewrite Hline. simpl.
    by rewrite app_nil_r.
  - assert (rest ≠ []) as Hrest by (intros E; rewrite E in Hline; done).
    rewrite (lines_unfold rest Hrest), Hline. simpl scan.
    fold (line_text (b :: line)).
    destruct (is_sentinel (line_text (b :: line))) eqn:Hs; [done|].
    rewrite IH; simpl pos; simpl content.
    + rewrite <- (drop_drop_pos (content f)). fold rest. simpl length.
      destruct (scan (lines (drop (S (length line)) rest))) as [hl n].
      simpl. rewrite <- app_assoc. simpl. do 3 f_equal. lia.
    + rewrite <- (drop_drop_pos (content f)). fold rest.
      rewrite length_drop.
      assert (length (b :: line) ≤ length rest)%nat
        by (rewrite <- Hline; apply first_line_length).
      simpl in *. lia.
Qed.

(** The [while True] loop of the lexer terminates on every file. *)
Lemma read_header_loop_total (f : file) :
  is_Some (read_header_loop (S (length (content f) - pos f)) f []).
Proof.
  rewrite read_header_loop_scan; [done|]. rewrite length_drop. lia.
Qed.

Lemma read_header_scan (content : list byte) :
  read_header (open content)
  = ((scan (lines content)).1,
     {| content := content; pos := (scan (lines content)).2 |}).
Proof.
  unfold read_header. rewrite read_header_loop_scan.
  - simpl. by rewrite drop_0.
  - simpl. rewrite drop_0. lia.
Qed.

Lemma scan_sentinel (raw : list (list byte)) (pre : list str) (s : str)
    (post : list str) :
  map line_text raw = pre ++ s :: post →
  Forall (λ l, l ∉ sentinels) pre →
  s ∈ sentinels →
  scan raw = (pre ++ [s], length (concat (take (S (length pre)) raw))).
Proof.
  revert pre. induction raw as [|l raw IH]; intros pre Hmap Hpre Hs.
  - by destruct pre.
  - destruct pre as [|p pre]; simpl in Hmap; injection Hmap as Hl Hmap.
    + simpl scan. rewrite Hl. apply is_sentinel_spec in Hs. rewrite Hs.
      simpl. by rewrite app_nil_r.
    + inversion Hpre as [|?? Hp Hpre']; subst. simpl scan.
      apply is_sentinel_false in Hp. rewrite Hp.
      rewrite (IH pre Hmap Hpre' Hs). simpl.
      by rewrite !length_app.
Qed.

Lemma scan_no_sentinel (raw : list (list byte)) :
  Forall (λ l, l ∉ sentinels) (map line_text raw) →
  scan raw = (map line_text raw, length (concat raw)).
Proof.
  induction raw as [|l raw IH]; intros Hall; [done|].
  simpl in Hall. inversion Hall as [|?? Hl Hall']; subst. simpl scan.
  apply is_sentinel_false in Hl. rewrite Hl, (IH Hall'). simpl.
  by rewrite length_app.
Qed.

(** C5.  The header lexer reads the terminator-delimited lines of the file in
    order and keeps the decoded, stripped text of each.  If a line whose text
    is one of the three sentinels exists, the returned header is the lines up
    to and including the first such line, and the cursor is left right after
    that line: nothing behind it is consumed.  If no line is a sentinel, the
    header is all the lines and the cursor is at the end of the file; the
    lexer returns normally in both cases. *)
Theorem header_lexer_stops_at_sentinel (content : list byte) :
  let raw := lines content in
  (∀ pre s post,
      map line_text raw = pre ++ s :: post →
      Forall (λ l, l ∉ sentinels) pre →
      s ∈ sentinels →
      read_header (open content)
      = (pre ++ [s],
         {| content := content;
            pos := length (concat (take (S (length pre)) raw)) |}))
  ∧ (Forall (λ l, l ∉ sentinels) (map line_text raw) →
      read_header (open content)
      = (map line_text raw,
         {| content := content; pos := length content |})).
Proof.
  intros raw. split.
  - intros pre s post Hmap Hpre Hs. rewrite read_header_scan.
    fold raw. by rewrite (scan_sentinel raw pre s post Hmap Hpre Hs).
  - intros Hall. rewrite read_header_scan. fold raw.
    rewrite (scan_no_sentinel raw Hall). simpl.
    unfold raw. by rewrite lines_concat.
Qed.

(** ** Row geometry *)

Lemma row_size_of_Zsum (sizes counts : list Z) :
  row_size_of sizes counts = Zsum (spans sizes counts).
Proof.
  revert counts. induction sizes as [|s sizes IH]; intros [|c counts]; simpl;
    try done.
  by rewrite IH.
Qed.

Lemma Zsum_app (l k : list Z) : Zsum (l ++ k) = Zsum l + Zsum k.
Proof. induction l as [|x l IH]; simpl; [done|]. rewrite IH. lia. Qed.

Lemma Zsum_take_S (l : list Z) (i : nat) (x : Z) :
  l !! i = Some x → Zsum (take (S i) l) = Zsum (take i l) + x.
Proof.
  intros Hx. rewrite (take_S_r _ _ _ Hx), Zsum_app. simpl. lia.
Qed.

Lemma Zsum_nonneg (l : list Z) : Forall (λ x, 0 ≤ x) l → 0 ≤ Zsum l.
Proof. induction 1; simpl; lia. Qed.

Lemma field_size_at_spans (header_info : hinfo) (ss cs : list Z) (i : nat)
    (s : Z) :
  sizes header_info = Some ss → counts header_info = Some cs →
  spans ss cs !! i = Some s →
  field_size_at header_info i = Ok s.
Proof.
  intros Hss Hcs Hs. unfold field_size_at. rewrite Hss, Hcs. simpl.
  apply lookup_zip_with_Some in Hs as (x & y & -> & Hx & Hy).
  unfold index. rewrite Hx. simpl. by rewrite Hy.
Qed.

(** With a span for every field, the offset loop prints the packed layout. *)
Lemma field_offsets_layout (header_info : hinfo) (ss cs : list Z)
    (fs : list str) (i : nat) (off : Z) :
  sizes header_info = Some ss → counts header_info = Some cs →
  (i + length fs ≤ length (spans ss cs))%nat →
  field_offsets i fs header_info off
  = Ok (layout fs (drop i (spans ss cs)) off).
Proof.
  intros Hss Hcs. revert i off.
  induction fs as [|f fs IH]; intros i off Hlen; [done|].
  simpl in Hlen. simpl field_offsets.
  destruct (lookup_lt_is_Some_2 (spans ss cs) i) as [s Hs]; [lia|].
  rewrite (field_size_at_spans _ _ _ _ _ Hss Hcs Hs). simpl.
  rewrite IH by lia. simpl.
  by rewrite (drop_S _ _ _ Hs).
Qed.

Lemma layout_length (fs : list str) (sp : list Z) (off : Z) :
  length (layout fs sp off) = min (length fs) (length sp).
Proof.
  revert sp off. induction fs as [|f fs IH]; intros [|s sp] off; simpl;
    try done.
  by rewrite IH.
Qed.

(** The offset of a field is the sum of the spans before it. *)
Lemma layout_lookup (fs : list str) (sp : list Z) (off : Z) (i : nat)
    (f : str) (s : Z) :
  fs !! i = Some f → sp !! i = Some s →
  layout fs sp off !! i = Some (f, off + Zsum (take i sp), s).
Proof.
  revert sp off i. induction fs as [|f' fs IH]; intros [|s' sp] off i Hf Hs;
    try done.
  destruct i as [|i]; simpl in *.
  - injection Hf as ->. injection Hs as ->. do 3 f_equal. lia.
  - rewrite (IH sp (off + s') i Hf Hs). do 3 f_equal. lia.
Qed.

(** C4.  When SIZE and COUNT are present and have one entry per field, the
    geometry step binds the stride to the sum of [size_i * count_i] over all
    fields and prints, for field [i], its name, its offset and its span;
    the first offset is 0, each later offset is the previous one plus the
    previous field's span, so that offset [i] is the sum of the spans before
    [i]: the fields are packed without padding. *)
Theorem row_geometry_packed (header_info : hinfo) (fs : list str)
    (ss cs : list Z) :
  fields header_info = Some fs →
  sizes header_info = Some ss →
  counts header_info = Some cs →
  length ss = length fs →
  length cs = length fs →
  ∃ rows : list (str * Z * Z),
    row_geometry header_info = Ok (Some (Zsum (spans ss cs)), rows)
    ∧ length (spans ss cs) = length fs
    ∧ length rows = length fs
    ∧ (∀ i f s c, fs !! i = Some f → ss !! i = Some s → cs !! i = Some c →
         rows !! i = Some (f, Zsum (take i (spans ss cs)), s * c))
    ∧ (∀ f o s, rows !! 0%nat = Some (f, o, s) → o = 0)
    ∧ (∀ i f o s f' o' s',
         rows !! i = Some (f, o, s) → rows !! S i = Some (f', o', s') →
         o' = o + s
         ∧ ∃ sz ct, ss !! i = Some sz ∧ cs !! i = Some ct ∧ s = sz * ct).
Proof.
  intros Hfs Hss Hcs Hls Hlc.
  assert (length (spans ss cs) = length fs) as Hlen
    by (unfold spans; rewrite length_zip_with; lia).
  assert (∀ i f s c, fs !! i = Some f → ss !! i = Some s → cs !! i = Some c →
            layout fs (spans ss cs) 0 !! i
            = Some (f, Zsum (take i (spans ss cs)), s * c)) as Hlook.
  { intros i f s c Hf Hs Hc.
    rewrite (layout_lookup fs (spans ss cs) 0 i f (s * c) Hf); [done|].
    unfold spans. rewrite lookup_zip_with, Hs. simpl. by rewrite Hc. }
  exists (layout fs (spans ss cs) 0).
  split; [|split; [done|split; [|split; [done|split]]]].
  - unfold row_geometry. rewrite Hss, Hcs, Hfs. simpl.
    rewrite (field_offsets_layout header_info ss cs fs 0 0 Hss Hcs) by lia.
    simpl. by rewrite drop_0, row_size_of_Zsum.
  - rewrite layout_length. lia.
  - intros f o s Hrow.
    destruct fs as [|f0 fs]; [done|].
    destruct ss as [|s0 ss]; [done|]. destruct cs as [|c0 cs]; [done|].
    simpl in Hrow. by injection Hrow as _ <- _.
  - intros i f o s f' o' s' Hi HSi.
    assert (S i < length fs)%nat as Hlt.
    { apply lookup_lt_Some in HSi. rewrite layout_length in HSi. lia. }
    destruct (lookup_lt_is_Some_2 fs i) as [g Hg]; [lia|].
    destruct (lookup_lt_is_Some_2 ss i) as [sz Hsz]; [lia|].
    destruct (lookup_lt_is_Some_2 cs i) as [ct Hct]; [lia|].
    destruct (lookup_lt_is_Some_2 fs (S i)) as [g' Hg']; [lia|].
    destruct (lookup_lt_is_Some_2 ss (S i)) as [sz' Hsz']; [lia|].
    destruct (lookup_lt_is_Some_2 cs (S i)) as [ct' Hct']; [lia|].
    rewrite (Hlook _ _ _ _ Hg Hsz Hct) in Hi.
    rewrite (Hlook _ _ _ _ Hg' Hsz' Hct') in HSi.
    injection Hi as <- <- <-. injection HSi as <- <- <-.
    split; [|by eauto].
    apply Zsum_take_S. unfold spans.
    rewrite lookup_zip_with, Hsz. simpl. by rewrite Hct.
Qed.

(** ** Bytes, slices and [struct] *)

Lemma byte_val_range (b : byte) : 0 ≤ byte_val b < 256.
Proof. unfold byte_val. pose proof (Byte.to_N_bounded b). lia. Qed.

Lemma byte_val_of_Z (n : Z) : byte_val (byte_of_Z n) = n mod 256.
Proof.
  unfold byte_val, byte_of_Z.
  pose proof (Z.mod_pos_bound n 256 ltac:(lia)) as Hr.
  destruct (Byte.of_N (Z.to_N (n mod 256))) as [b|] eqn:Hb.
  - apply Byte.to_of_N in Hb. rewrite Hb. lia.
  - apply Byte.of_N_None_iff in Hb. lia.
Qed.

(** Unpacking the four bytes of a packed 32-bit pattern gives it back. *)
Lemma le_bits_pack_f (bits : Z) :
  0 ≤ bits < 2 ^ 32 → le_bits (pack_f bits) = bits.
Proof.
  intros Hb. unfold pack_f, le_bits.
  rewrite !byte_val_of_Z, !Z.shiftr_div_pow2 by lia.
  change (2 ^ 8) with 256. change (2 ^ 16) with 65536.
  change (2 ^ 24) with 16777216. change (2 ^ 32) with 4294967296 in Hb.
  pose proof (Z.div_mod bits 256 ltac:(lia)) as H0.
  pose proof (Z.div_mod (bits / 256) 256 ltac:(lia)) as H1.
  pose proof (Z.div_mod (bits / 65536) 256 ltac:(lia)) as H2.
  rewrite Z.div_div in H1, H2 by lia.
  change (256 * 256) with 65536 in H1.
  change (65536 * 256) with 16777216 in H2.
  assert ((bits / 16777216) mod 256 = bits / 16777216) as ->.
  { apply Z.mod_small. split; [apply Z.div_pos; lia|].
    apply Z.div_lt_upper_bound; lia. }
  lia.
Qed.

Lemma slice_inside (data : list byte) (lo hi : Z) :
  0 ≤ lo → lo ≤ hi → hi ≤ Z.of_nat (length data) →
  slice data lo hi = take (Z.to_nat (hi - lo)) (drop (Z.to_nat lo) data).
Proof.
  intros Hlo Hle Hhi. unfold slice, clamp.
  destruct (Z.ltb_spec lo 0); [lia|]. destruct (Z.ltb_spec hi 0); [lia|].
  by rewrite !Z.min_l by lia.
Qed.

Lemma u8_at_le_bits (row : list byte) (off : Z) :
  0 ≤ off → off + 1 ≤ Z.of_nat (length row) →
  le_bits (take 1 (drop (Z.to_nat off) row)) = u8_at row off.
Proof.
  intros Hoff Hlen. unfold u8_at.
  destruct (lookup_lt_is_Some_2 row (Z.to_nat off)) as [b Hb]; [lia|].
  rewrite Hb. rewrite (drop_S _ _ _ Hb). simpl. lia.
Qed.

(** ** Field decoding *)

(** Inside the row, one field is decoded by its span alone. *)
Lemma decode_field_expected (row : list byte) (name : str) (off span : Z) :
  fits (Z.of_nat (length row)) (name, off, span) →
  decode_field name span (slice row off (off + span))
  = Ok (expected_field row (name, off, span)).
Proof.
  intros (Hoff & Hspan & Hlen). unfold decode_field, expected_field.
  rewrite slice_inside by lia.
  replace (off + span - off) with span by lia.
  destruct (Z.eqb_spec span 4) as [->|H4].
  - unfold unpack_f. rewrite bool_decide_true.
    + done.
    + rewrite length_take, length_drop. lia.
  - destruct (Z.eqb_spec span 1) as [->|H1]; [|done].
    unfold unpack_B. rewrite bool_decide_true.
    + simpl. by rewrite u8_at_le_bits by lia.
    + rewrite length_take, length_drop. lia.
Qed.

Lemma layout_fits (fs : list str) (sp : list Z) (off len : Z) :
  Forall (λ s, 0 ≤ s) sp → 0 ≤ off → off + Zsum sp ≤ len →
  Forall (fits len) (layout fs sp off).
Proof.
  intros Hsp. revert fs off.
  induction Hsp as [|s sp Hs Hsp IH]; intros [|f fs] off Hoff Hlen; simpl;
    try constructor.
  - simpl in Hlen. pose proof (Zsum_nonneg sp Hsp). unfold fits. lia.
  - apply IH; simpl in Hlen; lia.
Qed.

(** The field loop prints, field by field, what the span of each field
    prescribes, as long as every field lies inside the row. *)
Lemma decode_fields_layout (header_info : hinfo) (ss cs : list Z)
    (fs : list str) (row : list byte) (j : nat) (off : Z) :
  sizes header_info = Some ss → counts header_info = Some cs →
  (j + length fs ≤ length (spans ss cs))%nat →
  Forall (fits (Z.of_nat (length row))) (layout fs (drop j (spans ss cs)) off) →
  decode_fields j fs header_info row off
  = (flat_map (expected_field row) (layout fs (drop j (spans ss cs)) off),
     None).
Proof.
  intros Hss Hcs. revert j off.
  induction fs as [|f fs IH]; intros j off Hlen Hfits; [done|].
  simpl in Hlen. simpl decode_fields.
  destruct (lookup_lt_is_Some_2 (spans ss cs) j) as [s Hs]; [lia|].
  rewrite (field_size_at_spans _ _ _ _ _ Hss Hcs Hs).
  rewrite (drop_S _ _ _ Hs) in Hfits |- *. simpl in Hfits |- *.
  inversion Hfits as [|?? Hfit Hfits']; subst.
  rewrite (decode_field_expected row f off s Hfit).
  by rewrite IH by (done || lia).
Qed.

(** The decoder looks at the fields, sizes and counts only. *)
Lemma decode_fields_ext (h1 h2 : hinfo) (fs : list str) (row : list byte)
    (j : nat) (off : Z) :
  sizes h1 = sizes h2 → counts h1 = counts h2 →
  decode_fields j fs h1 row off = decode_fields j fs h2 row off.
Proof.
  intros Hs Hc. revert j off. induction fs as [|f fs IH]; intros j off;
    [done|].
  simpl.
  assert (field_size_at h1 j = field_size_at h2 j) as ->
    by (unfold field_size_at; by rewrite Hs, Hc).
  destruct (field_size_at h2 j) as [field_size|e]; [|done].
  destruct (decode_field _ _ _); [|done]. by rewrite IH.
Qed.

Lemma decode_point_ext (h1 h2 : hinfo) (row : list byte) :
  fields h1 = fields h2 → sizes h1 = sizes h2 → counts h1 = counts h2 →
  decode_point h1 row = decode_point h2 row.
Proof.
  intros Hf Hs Hc. unfold decode_point. rewrite Hf.
  destruct (fields h2); [|done]. by apply decode_fields_ext.
Qed.

Lemma decode_point_layout (header_info : hinfo) (fs : list str)
    (ss cs : list Z) (row : list byte) :
  fields header_info = Some fs →
  sizes header_info = Some ss →
  counts header_info = Some cs →
  (length fs ≤ length ss)%nat →
  (length fs ≤ length cs)%nat →
  Forall (λ s, 0 ≤ s) (spans ss cs) →
  Zsum (spans ss cs) ≤ Z.of_nat (length row) →
  decode_point header_info row
  = (flat_map (expected_field row) (layout fs (spans ss cs) 0), None).
Proof.
  intros Hfs Hss Hcs Hls Hlc Hnn Hrow. unfold decode_point. rewrite Hfs.
  assert (length fs ≤ length (spans ss cs))%nat as Hlen
    by (unfold spans; rewrite length_zip_with; lia).
  rewrite (decode_fields_layout header_info ss cs fs row 0 0 Hss Hcs);
    rewrite ?drop_0; [done|lia|].
  apply layout_fits; [done|lia|lia].
Qed.

(** C7.  With a size and a count for every field, none negative, and a row
    of at least the stride, the record printed for a row consists, field by
    field in declared order, of a float read from the 4 bytes at the field's
    offset when the span is 4, an unsigned byte read from the byte at the
    field's offset when the span is 1, and nothing for any other span.  The
    result is the same for any other header with the same FIELDS, SIZE and
    COUNT entries, whatever its TYPE entry. *)
Theorem decode_by_span_only (header_info : hinfo) (fs : list str)
    (ss cs : list Z) (row : list byte) :
  fields header_info = Some fs →
  sizes header_info = Some ss →
  counts header_info = Some cs →
  (length fs ≤ length ss)%nat →
  (length fs ≤ length cs)%nat →
  Forall (λ s, 0 ≤ s) (spans ss cs) →
  Zsum (spans ss cs) ≤ Z.of_nat (length row) →
  decode_point header_info row
  = (flat_map (expected_field row) (layout fs (spans ss cs) 0), None)
  ∧ (∀ name off,
       expected_field row (name, off, 4) = [(name, VFloat (f32_at row off))]
       ∧ expected_field row (name, off, 1) = [(name, VUInt8 (u8_at row off))]
       ∧ ∀ span, span ≠ 4 → span ≠ 1 →
           expected_field row (name, off, span) = [])
  ∧ (∀ other : hinfo,
       fields other = fields header_info →
       sizes other = sizes header_info →
       counts other = counts header_info →
       decode_point other row = decode_point header_info row).
Proof.
  intros Hfs Hss Hcs Hls Hlc Hnn Hrow. split; [|split].
  - by apply decode_point_layout.
  - intros name off. repeat split; [done..|].
    intros span H4 H1. unfold expected_field.
    destruct (Z.eqb_spec span 4); [done|].
    by destruct (Z.eqb_spec span 1).
  - intros other Hf Hs Hc. by apply decode_point_ext.
Qed.

Lemma lor_bit_set (b n : Z) :
  0 ≤ n → Z.testbit b n = true → Z.lor b (2 ^ n) = b.
Proof.
  intros Hn Hb. apply Z.bits_inj'. intros m Hm.
  rewrite Z.lor_spec, Z.pow2_bits_eqb by lia.
  destruct (Z.eqb_spec n m) as [->|]; [by rewrite Hb|by rewrite orb_false_r].
Qed.

(** Reading the bits of anything but a signalling NaN gives them back. *)
Lemma quieted_id (bits : Z) : is_snan bits = false → quieted bits = bits.
Proof.
  unfold quieted, is_snan. destruct (is_nan32 bits); [|done]. simpl.
  intros Hq%negb_false_iff. by apply lor_bit_set.
Qed.

(** Reading the bits of a signalling NaN gives other bits. *)
Lemma quieted_snan (bits : Z) :
  is_snan bits = true →
  quieted bits = Z.lor bits (2 ^ 22) ∧ Z.lor bits (2 ^ 22) ≠ bits.
Proof.
  unfold quieted, is_snan. intros [Hnan Hs%negb_true_iff]%andb_true_iff.
  rewrite Hnan. split; [done|]. intros E.
  assert (Z.testbit (Z.lor bits (2 ^ 22)) 22 = true) as Hset
    by (rewrite Z.lor_spec, Z.pow2_bits_eqb by lia; by rewrite orb_true_r).
  congruence.
Qed.

Lemma quieted_bound (bits : Z) :
  0 ≤ bits < 2 ^ 32 → 0 ≤ quieted bits < 2 ^ 32.
Proof.
  intros Hb. unfold quieted. destruct (is_nan32 bits); [|done].
  split; [apply Z.lor_nonneg; lia|].
  destruct (decide (Z.lor bits (2 ^ 22) = 0)) as [->|Hne]; [lia|].
  assert (0 ≤ Z.lor bits (2 ^ 22)) by (apply Z.lor_nonneg; lia).
  apply Z.log2_lt_pow2; [lia|].
  rewrite Z.log2_lor by lia.
  destruct (decide (bits = 0)) as [->|Hb0]; [by vm_compute|].
  assert (Z.log2 bits < 32) by (apply Z.log2_lt_pow2; lia).
  rewrite Z.log2_pow2 by lia. lia.
Qed.

Lemma f32_at_pack_f (before after : list byte) (bits : Z) :
  0 ≤ bits < 2 ^ 32 →
  f32_at (before ++ pack_f bits ++ after) (Z.of_nat (length before))
  = quieted bits.
Proof.
  intros Hb. unfold f32_at. rewrite Nat2Z.id, drop_app_length.
  rewrite (take_app_length' (pack_f bits) after 4) by done.
  by rewrite le_bits_pack_f.
Qed.

(** The float read where a 32-bit pattern was written. *)
Lemma float_read_back (header_info : hinfo) (fs : list str)
    (ss cs : list Z) (i : nat) (name : str) (bits : Z)
    (before after : list byte) :
  fields header_info = Some fs →
  sizes header_info = Some ss →
  counts header_info = Some cs →
  (length fs ≤ length ss)%nat →
  (length fs ≤ length cs)%nat →
  Forall (λ s, 0 ≤ s) (spans ss cs) →
  fs !! i = Some name →
  spans ss cs !! i = Some 4 →
  Z.of_nat (length before) = Zsum (take i (spans ss cs)) →
  0 ≤ bits < 2 ^ 32 →
  let row := before ++ pack_f bits ++ after in
  let o := Z.of_nat (length before) in
  Zsum (spans ss cs) ≤ Z.of_nat (length row) →
  unpack_f (slice row o (o + 4)) = Ok (VFloat (quieted bits))
  ∧ ∃ rec, decode_point header_info row = (rec, None)
           ∧ (name, VFloat (quieted bits)) ∈ rec.
Proof.
  intros Hfs Hss Hcs Hls Hlc Hnn Hname Hspan Hoff Hbits row o Hrow.
  assert (f32_at row o = quieted bits) as Hval by by apply f32_at_pack_f.
  split.
  - rewrite slice_inside.
    + replace (o + 4 - o) with 4 by lia. unfold unpack_f.
      rewrite bool_decide_true; [by rewrite <- Hval|].
      unfold row, o. rewrite Nat2Z.id, drop_app_length. done.
    + lia.
    + lia.
    + unfold row, o. rewrite !length_app. simpl. lia.
  - eexists. split.
    + by apply (decode_point_layout header_info fs ss cs row).
    + apply list_elem_of_In, in_flat_map.
      exists (name, o, 4). split.
      * apply list_elem_of_In, list_elem_of_lookup. exists i.
        rewrite (layout_lookup fs (spans ss cs) 0 i name 4 Hname Hspan).
        unfold o. rewrite Hoff. do 3 f_equal.
      * simpl. rewrite Hval. by left.
Qed.

(** C9 (as the code has it).  Take a 32-bit pattern, write its four bytes
    least significant first at the offset of a 4-byte field inside a row,
    and decode the row.  If the pattern is not a signalling NaN, the bytes
    sliced for that field unpack to a float with exactly that pattern, and
    the decoded record holds it under the field's name.  If it is a
    signalling NaN, the float that is read is the quiet NaN with bit 22 set,
    whose pattern differs from the one written. *)
Theorem float_round_trip (header_info : hinfo) (fs : list str)
    (ss cs : list Z) (i : nat) (name : str) (bits : Z)
    (before after : list byte) :
  fields header_info = Some fs →
  sizes header_info = Some ss →
  counts header_info = Some cs →
  (length fs ≤ length ss)%nat →
  (length fs ≤ length cs)%nat →
  Forall (λ s, 0 ≤ s) (spans ss cs) →
  fs !! i = Some name →
  spans ss cs !! i = Some 4 →
  Z.of_nat (length before) = Zsum (take i (spans ss cs)) →
  0 ≤ bits < 2 ^ 32 →
  let row := before ++ pack_f bits ++ after in
  let o := Z.of_nat (length before) in
  Zsum (spans ss cs) ≤ Z.of_nat (length row) →
  (is_snan bits = false →
   unpack_f (slice row o (o + 4)) = Ok (VFloat bits)
   ∧ ∃ rec, decode_point header_info row = (rec, None)
            ∧ (name, VFloat bits) ∈ rec)
  ∧ (is_snan bits = true →
     unpack_f (slice row o (o + 4)) = Ok (VFloat (Z.lor bits (2 ^ 22)))
     ∧ Z.lor bits (2 ^ 22) ≠ bits).
Proof.
  intros Hfs Hss Hcs Hls Hlc Hnn Hname Hspan Hoff Hbits row o Hrow.
  pose proof (float_read_back header_info fs ss cs i name bits before after
                Hfs Hss Hcs Hls Hlc Hnn Hname Hspan Hoff Hbits Hrow)
    as [Hunpack Hrec].
  fold row o in Hunpack, Hrec. split.
  - intros Hq. rewrite (quieted_id bits Hq) in Hunpack, Hrec. by split.
  - intros Hs. destruct (quieted_snan bits Hs) as [Heq Hne].
    rewrite Heq in Hunpack. by split.
Qed.

(** ** Sample reader *)

Lemma spans_positive (ss cs : list Z) :
  Forall (λ s, 0 < s) ss → Forall (λ c, 0 < c) cs →
  Forall (λ s, 0 < s) (spans ss cs).
Proof.
  intros Hss. revert cs. induction Hss as [|s ss Hs Hss IH];
    intros cs Hcs; [constructor|].
  destruct Hcs as [|c cs Hc Hcs]; [constructor|].
  simpl. constructor; [nia|]. by apply IH.
Qed.

Lemma Zsum_positive (l : list Z) :
  l ≠ [] → Forall (λ x, 0 < x) l → 0 < Zsum l.
Proof.
  intros Hne Hall. destruct Hall as [|x l Hx Hall]; [done|].
  simpl. assert (0 ≤ Zsum l); [|lia].
  apply Zsum_nonneg. eapply Forall_impl; [|exact Hall].
  intros y Hy. simpl in *. lia.
Qed.

Lemma seek_tell (f : file) : seek (tell f) f = f.
Proof. destruct f as [c p]. unfold seek, tell. simpl. by rewrite Nat2Z.id. Qed.

(** The sample loop on a file whose rows all decode: it prints the rows
    from [i] on, as many as it may attempt and as fit before the end. *)
Lemma points_loop_rows (header_info : hinfo) (decoded : list byte → record)
    (stride data_start : Z) (data : list byte) (n i : nat) (p : nat) :
  0 < stride → 0 ≤ data_start →
  (∀ row, Z.of_nat (length row) = stride →
          decode_point header_info row = (decoded row, None)) →
  Z.of_nat p = data_start + Z.of_nat i * stride →
  points_loop (seq i n) header_info (Some stride) data_start
    (Z.of_nat (length data)) {| content := data; pos := p |}
  = (map (λ m, decoded (row_at data data_start stride m))
       (seq i (Z.to_nat
                 (Z.min (Z.of_nat n)
                    ((Z.of_nat (length data) - data_start) / stride
                     - Z.of_nat i)))),
     None).
Proof.
  intros Hstride Hstart Hdec. revert i p.
  set (file_size := Z.of_nat (length data)).
  set (total := (file_size - data_start) / stride).
  induction n as [|n IH]; intros i p Hp.
  - simpl. by rewrite Z2Nat.nonpos by lia.
  - simpl points_loop.
    destruct (Z.gtb_spec (data_start + (Z.of_nat i + 1) * stride) file_size)
      as [Hpast|Hfull].
    + assert (total < Z.of_nat i + 1) as Hlt.
      { apply Z.div_lt_upper_bound; lia. }
      by rewrite Z2Nat.nonpos by lia.
    + assert (Z.of_nat i + 1 ≤ total) as Hge.
      { apply Z.div_le_lower_bound; lia. }
      unfold read. cbn [pos content].
      destruct (Z.ltb_spec stride (- 2 ^ 63)); [lia|].
      destruct (Z.ltb_spec stride (-1)); [lia|].
      destruct (Z.eqb_spec stride (-1)); [lia|].
      assert (length (take (Z.to_nat stride) (drop p data))
              = Z.to_nat stride) as Hrow.
      { rewrite length_take, length_drop. unfold file_size in Hfull. lia. }
      rewrite Hrow.
      destruct (Z.ltb_spec (Z.of_nat (Z.to_nat stride)) stride); [lia|].
      rewrite Hdec by lia.
      rewrite (IH (S i) (p + Z.to_nat stride)%nat) by lia.
      replace (Z.to_nat (Z.min (Z.of_nat (S n)) (total - Z.of_nat i)))
        with (S (Z.to_nat (Z.min (Z.of_nat n) (total - Z.of_nat (S i)))))
        by lia.
      simpl. do 3 f_equal. unfold row_at. do 2 f_equal. lia.
Qed.

(** With one positive size and count per field, a full row always decodes. *)
Lemma decode_point_full_row (header_info : hinfo) (fs : list str)
    (ss cs : list Z) (row : list byte) :
  fields header_info = Some fs →
  sizes header_info = Some ss →
  counts header_info = Some cs →
  length ss = length fs →
  length cs = length fs →
  Forall (λ s, 0 < s) ss →
  Forall (λ c, 0 < c) cs →
  Z.of_nat (length row) = Zsum (spans ss cs) →
  decode_point header_info row
  = (flat_map (expected_field row) (layout fs (spans ss cs) 0), None).
Proof.
  intros Hfs Hss Hcs Hls Hlc Hps Hpc Hrow.
  apply decode_point_layout; try done; [lia|lia| |lia].
  eapply Forall_impl; [|exact (spans_positive ss cs Hps Hpc)].
  intros y Hy. simpl in *. lia.
Qed.

Lemma row_geometry_aligned (header_info : hinfo) (fs : list str)
    (ss cs : list Z) :
  fields header_info = Some fs →
  sizes header_info = Some ss →
  counts header_info = Some cs →
  length ss = length fs →
  length cs = length fs →
  row_geometry header_info
  = Ok (Some (Zsum (spans ss cs)), layout fs (spans ss cs) 0).
Proof.
  intros Hfs Hss Hcs Hls Hlc.
  unfold row_geometry. rewrite Hss, Hcs, Hfs. simpl.
  rewrite (field_offsets_layout header_info ss cs fs 0 0 Hss Hcs).
  - simpl. by rewrite drop_0, row_size_of_Zsum.
  - unfold spans. rewrite length_zip_with. lia.
Qed.

Lemma reads_points_binary (header_info : hinfo) :
  data_type header_info = Some (lit "binary") →
  reads_points header_info = true.
Proof.
  intros H. unfold reads_points, data_type_is.
  by rewrite bool_decide_true.
Qed.

(** C6.  For a binary file whose header gives every field a positive size
    and count, the analysis returns normally and its sample reader signals
    no error.  It prints [min k total] records, where [k = min(3, declared
    points)] is the number of rows it may attempt and [total] the number of
    full strides between the data start and the end of the file: never more
    than [k], each printed record being a full row decoded, and fewer than
    [k] only when the next full stride would pass the end of the file.  With
    100000 declared points and a data segment of exactly one stride there
    is exactly one record. *)
Theorem sample_reader_stops_at_eof (header_info : hinfo) (fs : list str)
    (ss cs : list Z) (header_lines : list str) (f : file) :
  fields header_info = Some fs →
  sizes header_info = Some ss →
  counts header_info = Some cs →
  length ss = length fs →
  length cs = length fs →
  fs ≠ [] →
  Forall (λ s, 0 < s) ss →
  Forall (λ c, 0 < c) cs →
  data_type header_info = Some (lit "binary") →
  (pos f ≤ length (content f))%nat →
  let file_size := getsize (content f) in
  let data_start := tell f in
  let stride := Zsum (spans ss cs) in
  let k := Z.min 3 (declared_points header_info) in
  ∃ (r : report) (recs : list record),
    analyze_parsed file_size header_lines header_info f = Done r
    ∧ r_row_size r = Some stride
    ∧ r_points r = Some (recs, None)
    ∧ Z.of_nat (length recs)
      = Z.max 0 (Z.min k ((file_size - data_start) / stride))
    ∧ Z.of_nat (length recs) ≤ Z.max 0 k
    ∧ (Z.of_nat (length recs) < k →
       data_start + (Z.of_nat (length recs) + 1) * stride > file_size)
    ∧ (∀ m, (m < length recs)%nat →
         data_start + (Z.of_nat m + 1) * stride ≤ file_size
         ∧ recs !! m
           = Some (flat_map
                     (expected_field (row_at (content f) data_start stride m))
                     (layout fs (spans ss cs) 0)))
    ∧ (declared_points header_info = 100000 →
       file_size - data_start = stride → length recs = 1%nat).
Proof.
  intros Hfs Hss Hcs Hls Hlc Hne Hps Hpc Hbin Hpos file_size data_start
    stride k.
  assert (0 < stride) as Hstride.
  { apply Zsum_positive; [|by apply spans_positive].
    destruct fs, ss, cs; done. }
  set (decoded := λ row : list byte,
         flat_map (expected_field row) (layout fs (spans ss cs) 0)).
  set (total := (file_size - data_start) / stride).
  assert (0 ≤ file_size - data_start) as Hseg
    by (unfold file_size, data_start, getsize, tell; lia).
  assert (0 ≤ total) as Htotal by (apply Z.div_pos; lia).
  assert (stride * total ≤ file_size - data_start) as Hlow
    by (apply Z.mul_div_le; lia).
  assert (file_size - data_start < stride * (total + 1)) as Hhigh.
  { replace (total + 1) with (Z.succ total) by lia.
    apply Z.mul_succ_div_gt. lia. }
  set (n := Z.to_nat (Z.min (Z.of_nat (Z.to_nat k)) (total - Z.of_nat 0))).
  assert (read_points header_info (Some stride) data_start file_size f
          = (map (λ m, decoded (row_at (content f) data_start stride m))
               (seq 0 n), None)) as Hread.
  { unfold read_points, data_start. rewrite seek_tell.
    destruct f as [data p]. unfold range. fold k. cbn [content].
    apply points_loop_rows; [done|unfold tell; lia| |unfold tell; simpl; lia].
    intros row Hrow.
    by apply (decode_point_full_row header_info fs ss cs row). }
  eexists _, _. split; [|split; [|split]].
  - unfold analyze_parsed.
    rewrite (row_geometry_aligned header_info fs ss cs) by done.
    reflexivity.
  - done.
  - cbn [r_points]. rewrite (reads_points_binary _ Hbin).
    fold file_size data_start stride. by rewrite Hread.
  - rewrite length_map, length_seq.
    split; [unfold n; lia|]. split; [unfold n; lia|].
    split; [unfold n; nia|]. split.
    + intros m Hm. split; [unfold n in Hm; nia|].
      rewrite list_lookup_fmap, lookup_seq_lt by done. done.
    + intros Hpts Hone. unfold n, k, total. rewrite Hpts, Hone.
      rewrite Z.div_same by lia. done.
Qed.

(** ** Schema builder *)

Lemma startswith_spec (s p : str) :
  startswith s p = true ↔ ∃ rest, s = p ++ rest.
Proof.
  revert s. induction p as [|c p IH]; intros s; simpl.
  - split; [intros _; by exists s|done].
  - destruct s as [|c' s]; simpl.
    + split; [done|]. by intros [rest ?].
    + rewrite andb_true_iff, N.eqb_eq, IH. split.
      * intros [-> [rest ->]]. by eauto.
      * intros [rest [= -> ->]]. by eauto.
Qed.

(** No line starts with two of the directive words. *)
Lemma keyword_exclusive (line : str) (d d' : directive) :
  startswith line (keyword d) = true → d' ≠ d →
  startswith line (keyword d') = false.
Proof.
  intros [rest ->]%startswith_spec Hne.
  destruct d, d'; done.
Qed.

Ltac dispatch line H :=
  unfold parse_line;
  repeat match goal with
  | |- context [startswith line (lit ?w)] =>
    first
      [ rewrite (H : startswith line (lit w) = true)
      | match goal with
        | Hex : ∀ d', _ → _ → startswith line (keyword d') = false |- _ =>
          first
            [ rewrite (Hex FIELDS H ltac:(done) : startswith line (lit w) = false)
            | rewrite (Hex SIZE H ltac:(done) : startswith line (lit w) = false)
            | rewrite (Hex TYPE H ltac:(done) : startswith line (lit w) = false)
            | rewrite (Hex COUNT H ltac:(done) : startswith line (lit w) = false)
            | rewrite (Hex WIDTH H ltac:(done) : startswith line (lit w) = false)
            | rewrite (Hex HEIGHT H ltac:(done) : startswith line (lit w) = false)
            | rewrite (Hex POINTS H ltac:(done) : startswith line (lit w) = false)
            | rewrite (Hex DATA H ltac:(done) : startswith line (lit w) = false) ]
        end ]
  end.

(** A line that starts with the word of [d] is handled as directive [d]:
    its value is stored under [d] and nothing else changes; if the value
    cannot be read, the exception leaves the parser. *)
Lemma parse_line_prefix (py_int : str → option Z) (h : hinfo) (line : str)
    (d : directive) :
  startswith line (keyword d) = true →
  match values_of py_int d line with
  | Ok v => ∃ h', parse_line py_int h line = Ok h'
                  ∧ entry d h' = Some v
                  ∧ ∀ d', d' ≠ d → entry d' h' = entry d' h
  | Raise e => parse_line py_int h line = Raise e
  end.
Proof.
  intros H. pose proof (keyword_exclusive line d) as Hex.
  destruct d; simpl keyword in H; simpl values_of; dispatch line H.
  - eexists; split; [done|]. split; [done|]. by intros [].
  - destruct (ints py_int _) as [v|e]; simpl; [|done].
    eexists; split; [done|]. split; [done|]. by intros [].
  - eexists; split; [done|]. split; [done|]. by intros [].
  - destruct (ints py_int _) as [v|e]; simpl; [|done].
    eexists; split; [done|]. split; [done|]. by intros [].
  - destruct (index _ _) as [x|e]; simpl; [|done].
    destruct (int py_int x) as [v|e]; simpl; [|done].
    eexists; split; [done|]. split; [done|]. by intros [].
  - destruct (index _ _) as [x|e]; simpl; [|done].
    destruct (int py_int x) as [v|e]; simpl; [|done].
    eexists; split; [done|]. split; [done|]. by intros [].
  - destruct (index _ _) as [x|e]; simpl; [|done].
    destruct (int py_int x) as [v|e]; simpl; [|done].
    eexists; split; [done|]. split; [done|]. by intros [].
  - destruct (index _ _) as [x|e]; simpl; [|done].
    eexists; split; [done|]. split; [done|]. by intros [].
Qed.

Lemma parse_line_other (py_int : str → option Z) (h : hinfo) (line : str) :
  (∀ d, startswith line (keyword d) = false) →
  parse_line py_int h line = Ok h.
Proof.
  intros H. unfold parse_line.
  rewrite (H FIELDS : startswith line (lit "FIELDS") = false).
  rewrite (H SIZE : startswith line (lit "SIZE") = false).
  rewrite (H TYPE : startswith line (lit "TYPE") = false).
  rewrite (H COUNT : startswith line (lit "COUNT") = false).
  rewrite (H WIDTH : startswith line (lit "WIDTH") = false).
  rewrite (H HEIGHT : startswith line (lit "HEIGHT") = false).
  rewrite (H POINTS : startswith line (lit "POINTS") = false).
  by rewrite (H DATA : startswith line (lit "DATA") = false).
Qed.

(** Either one directive word starts the line, or none does. *)
Lemma keyword_cases (line : str) :
  (∃ d, startswith line (keyword d) = true)
  ∨ (∀ d, startswith line (keyword d) = false).
Proof.
  destruct (existsb (λ d, startswith line (keyword d)) directives) eqn:E.
  - left. apply existsb_exists in E as (d & _ & Hd). by exists d.
  - right. intros d.
    destruct (startswith line (keyword d)) eqn:Hd; [|done].
    assert (existsb (λ d, startswith line (keyword d)) directives = true);
      [|congruence].
    apply existsb_exists. exists d. split; [|done].
    destruct d; simpl; tauto.
Qed.

(** A line that does not start with the word of [d] leaves the entry of [d]
    alone. *)
Lemma parse_line_keeps (py_int : str → option Z) (h h' : hinfo) (line : str)
    (d : directive) :
  parse_line py_int h line = Ok h' →
  startswith line (keyword d) = false →
  entry d h' = entry d h.
Proof.
  intros Hparse Hd.
  destruct (keyword_cases line) as [[d' Hd']|Hnone].
  - pose proof (parse_line_prefix py_int h line d' Hd') as Hp.
    destruct (values_of py_int d' line) as [v|e].
    + destruct Hp as (h2 & Hh2 & _ & Hkeep).
      rewrite Hparse in Hh2. injection Hh2 as <-.
      apply Hkeep. intros ->. congruence.
    + congruence.
  - rewrite (parse_line_other py_int h line Hnone) in Hparse.
    by injection Hparse as <-.
Qed.

Lemma parse_lines_keeps (py_int : str → option Z) (ls : list str)
    (h h' : hinfo) (d : directive) :
  parse_lines py_int h ls = Ok h' →
  Forall (λ l, startswith l (keyword d) = false) ls →
  entry d h' = entry d h.
Proof.
  revert h. induction ls as [|l ls IH]; intros h Hparse Hall.
  - by injection Hparse as <-.
  - inversion Hall as [|?? Hl Hls]; subst. simpl in Hparse.
    destruct (parse_line py_int h l) as [h1|e] eqn:H1; [|done].
    simpl in Hparse. rewrite (IH h1 Hparse Hls).
    by apply (parse_line_keeps py_int h h1 l).
Qed.

Lemma parse_lines_app (py_int : str → option Z) (l1 l2 : list str)
    (h : hinfo) :
  parse_lines py_int h (l1 ++ l2)
  = h' ← parse_lines py_int h l1; parse_lines py_int h' l2.
Proof.
  revert h. induction l1 as [|l l1 IH]; intros h; [done|].
  simpl. destruct (parse_line py_int h l) as [h1|e]; simpl; [|done].
  apply IH.
Qed.

(** The last line that starts with the word of [d] decides the entry of
    [d]. *)
Lemma parse_lines_last_wins (py_int : str → option Z)
    (before after : list str) (line : str) (h0 h : hinfo) (d : directive) :
  parse_lines py_int h0 (before ++ line :: after) = Ok h →
  startswith line (keyword d) = true →
  Forall (λ l, startswith l (keyword d) = false) after →
  ∃ v, values_of py_int d line = Ok v ∧ entry d h = Some v.
Proof.
  intros Hparse Hd Hafter. rewrite parse_lines_app in Hparse.
  destruct (parse_lines py_int h0 before) as [h1|e]; [|done].
  simpl in Hparse.
  pose proof (parse_line_prefix py_int h1 line d Hd) as Hp.
  destruct (values_of py_int d line) as [v|e].
  - destruct Hp as (h2 & Hh2 & Hv & _). rewrite Hh2 in Hparse.
    simpl in Hparse. exists v. split; [done|].
    by rewrite (parse_lines_keeps py_int after h2 h d Hparse Hafter).
  - by rewrite Hp in Hparse.
Qed.

(** C3 (as the code has it).  A header line is dispatched on its beginning:
    a line that starts, case-sensitively, with one of the words FIELDS,
    SIZE, TYPE, COUNT, WIDTH, HEIGHT, POINTS, DATA is handled as that
    directive, whatever follows the word in its first token; the value read
    from the line is stored under the directive and the other entries are
    kept.  A line that starts with none of the words is ignored.  When
    several lines start with the same word, the last one decides the
    entry. *)
Theorem directive_dispatch_by_prefix (py_int : str → option Z) :
  (∀ h line d,
     startswith line (keyword d) = true →
     match values_of py_int d line with
     | Ok v => ∃ h', parse_line py_int h line = Ok h'
                     ∧ entry d h' = Some v
                     ∧ ∀ d', d' ≠ d → entry d' h' = entry d' h
     | Raise e => parse_line py_int h line = Raise e
     end)
  ∧ (∀ h line,
       (∀ d, startswith line (keyword d) = false) →
       parse_line py_int h line = Ok h)
  ∧ (∀ before line after h d,
       parse_header py_int (before ++ line :: after) = Ok h →
       startswith line (keyword d) = true →
       Forall (λ l, startswith l (keyword d) = false) after →
       ∃ v, values_of py_int d line = Ok v ∧ entry d h = Some v).
Proof.
  split; [|split].
  - intros h line d. apply parse_line_prefix.
  - intros h line. apply parse_line_other.
  - intros before line after h d. apply parse_lines_last_wins.
Qed.

(** ** The whole analysis *)

(** What a report that was produced contains. *)
Lemma analyze_parsed_done (file_size : Z) (header_lines : list str)
    (header_info : hinfo) (f : file) (r : report) :
  analyze_parsed file_size header_lines header_info f = Done r →
  row_geometry header_info = Ok (r_row_size r, r_offsets r)
  ∧ r_file_size r = file_size
  ∧ r_header_lines r = header_lines
  ∧ r_header_info r = header_info
  ∧ r_data_start r = tell f
  ∧ r_data_size r = file_size - tell f
  ∧ r_format r = format_of header_info
  ∧ r_points r
    = if reads_points header_info
      then Some (read_points header_info (r_row_size r) (tell f) file_size f)
      else None.
Proof.
  unfold analyze_parsed.
  destruct (row_geometry header_info) as [[row_size offsets]|e]; [|done].
  intros [= <-]. by repeat split.
Qed.

Lemma analyze_done (py_int : str → option Z) (data : list byte)
    (r : report) :
  analyze_pcd_file py_int (Some data) = Done r →
  ∃ header_info,
    parse_header py_int (read_header (open data)).1 = Ok header_info
    ∧ analyze_parsed (getsize data) (read_header (open data)).1 header_info
        (read_header (open data)).2 = Done r.
Proof.
  unfold analyze_pcd_file.
  destruct (read_header (open data)) as [header_lines f]. simpl.
  destruct (parse_header py_int header_lines) as [header_info|e]; [|done].
  by eauto.
Qed.

Lemma analyze_parsed_ok (py_int : str → option Z) (data : list byte)
    (header_info : hinfo) :
  parse_header py_int (read_header (open data)).1 = Ok header_info →
  analyze_pcd_file py_int (Some data)
  = analyze_parsed (getsize data) (read_header (open data)).1 header_info
      (read_header (open data)).2.
Proof.
  unfold analyze_pcd_file.
  destruct (read_header (open data)) as [header_lines f]. simpl.
  by intros ->.
Qed.

(** C8.  When a sentinel line ends the header, the report's data segment
    starts at the position right after that line, that is after the bytes of
    all lines up to and including it, and its size is the file size minus
    that start. *)
Theorem data_segment_after_sentinel (py_int : str → option Z)
    (data : list byte) (pre : list str) (s : str) (post : list str)
    (r : report) :
  map line_text (lines data) = pre ++ s :: post →
  Forall (λ l, l ∉ sentinels) pre →
  s ∈ sentinels →
  analyze_pcd_file py_int (Some data) = Done r →
  r_header_lines r = pre ++ [s]
  ∧ r_data_start r
    = Z.of_nat (length (concat (take (S (length pre)) (lines data))))
  ∧ r_file_size r = Z.of_nat (length data)
  ∧ r_data_size r = r_file_size r - r_data_start r.
Proof.
  intros Hmap Hpre Hs Hdone.
  apply analyze_done in Hdone as (header_info & _ & Hdone).
  apply analyze_parsed_done in Hdone
    as (_ & Hsize & Hlines & _ & Hstart & Hdsize & _).
  rewrite read_header_scan in Hlines, Hstart, Hdsize.
  rewrite (scan_sentinel (lines data) pre s post Hmap Hpre Hs)
    in Hlines, Hstart, Hdsize.
  simpl in Hlines, Hstart, Hdsize. unfold tell in Hstart, Hdsize.
  simpl in Hstart, Hdsize.
  rewrite Hsize, Hstart, Hdsize. by repeat split.
Qed.

(** *** The sample reader without a stride or without points *)

Lemma points_loop_unbound (idxs : list nat) (header_info : hinfo)
    (data_start file_size : Z) (f : file) :
  points_loop idxs header_info None data_start file_size f
  = ([], match idxs with [] => None | _ => Some UnboundLocalError end).
Proof. by destruct idxs. Qed.

Lemma read_points_unbound (header_info : hinfo) (data_start file_size : Z)
    (f : file) :
  read_points header_info None data_start file_size f
  = ([], if 0 <? Z.min 3 (declared_points header_info)
         then Some UnboundLocalError else None).
Proof.
  unfold read_points, range. rewrite points_loop_unbound.
  destruct (Z.ltb_spec 0 (Z.min 3 (declared_points header_info))) as [H|H].
  - destruct (Z.to_nat (Z.min 3 (declared_points header_info))) eqn:E;
      [lia|done].
  - by rewrite Z2Nat.nonpos by lia.
Qed.

Lemma read_points_no_points (header_info : hinfo) (row_size : option Z)
    (data_start file_size : Z) (f : file) :
  points header_info = None →
  read_points header_info row_size data_start file_size f = ([], None).
Proof.
  intros H. unfold read_points, declared_points. by rewrite H.
Qed.

Lemma entry_points_none (py_int : str → option Z) (header_lines : list str)
    (header_info : hinfo) :
  parse_header py_int header_lines = Ok header_info →
  Forall (λ l, startswith l (keyword POINTS) = false) header_lines →
  points header_info = None.
Proof.
  intros Hparse Hall.
  pose proof (parse_lines_keeps py_int _ _ _ POINTS Hparse Hall) as H.
  simpl in H. by destruct (points header_info).
Qed.

(** C10.  Without a POINTS entry the declared point count is 0 and the
    sample reader attempts no row: it prints no point and signals no error,
    whatever the stride.  So a report for a binary file whose header has no
    line starting with POINTS holds no decoded record and no read error. *)
Theorem no_points_no_records (py_int : str → option Z) :
  (∀ header_info row_size data_start file_size f,
     points header_info = None →
     declared_points header_info = 0
     ∧ range (Z.min 3 (declared_points header_info)) = []
     ∧ read_points header_info row_size data_start file_size f = ([], None))
  ∧ (∀ data r,
       analyze_pcd_file py_int (Some data) = Done r →
       data_type (r_header_info r) = Some (lit "binary") →
       Forall (λ l, startswith l (keyword POINTS) = false)
         (r_header_lines r) →
       r_points r = Some ([], None)).
Proof.
  split.
  - intros header_info row_size data_start file_size f H.
    split; [|split].
    + unfold declared_points. by rewrite H.
    + unfold declared_points. by rewrite H.
    + by apply read_points_no_points.
  - intros data r Hdone Hbin Hall.
    apply analyze_done in Hdone as (header_info & Hparse & Hdone).
    apply analyze_parsed_done in Hdone
      as (_ & _ & Hlines & Hinfo & _ & _ & _ & Hpoints).
    rewrite Hlines in Hall. rewrite Hinfo in Hbin.
    rewrite Hpoints, (reads_points_binary _ Hbin).
    rewrite read_points_no_points; [done|].
    by apply (entry_points_none py_int (read_header (open data)).1).
Qed.

(** *** Payload encodings *)

Lemma points_loop_ext (h1 h2 : hinfo) (idxs : list nat) (row_size : option Z)
    (data_start file_size : Z) (f : file) :
  fields h1 = fields h2 → sizes h1 = sizes h2 → counts h1 = counts h2 →
  points_loop idxs h1 row_size data_start file_size f
  = points_loop idxs h2 row_size data_start file_size f.
Proof.
  intros Hf Hs Hc. revert f. induction idxs as [|i idxs IH]; intros f;
    [done|].
  simpl. destruct row_size as [row_size|]; [|done].
  destruct (_ >? _); [done|].
  destruct (read row_size f) as [[row_data f']|e]; [|done].
  destruct (_ <? _); [done|].
  rewrite (decode_point_ext h1 h2 row_data Hf Hs Hc).
  destruct (decode_point h2 row_data) as [point [e|]]; [done|].
  by rewrite IH.
Qed.

Lemma read_points_ext (h1 h2 : hinfo) (row_size : option Z)
    (data_start file_size : Z) (f : file) :
  fields h1 = fields h2 → sizes h1 = sizes h2 → counts h1 = counts h2 →
  points h1 = points h2 →
  read_points h1 row_size data_start file_size f
  = read_points h2 row_size data_start file_size f.
Proof.
  intros Hf Hs Hc Hp. unfold read_points, declared_points. rewrite Hp.
  by apply points_loop_ext.
Qed.

Lemma field_offsets_ext (h1 h2 : hinfo) (fs : list str) (i : nat) (off : Z) :
  sizes h1 = sizes h2 → counts h1 = counts h2 →
  field_offsets i fs h1 off = field_offsets i fs h2 off.
Proof.
  intros Hs Hc. revert i off. induction fs as [|f fs IH]; intros i off;
    [done|].
  simpl.
  assert (field_size_at h1 i = field_size_at h2 i) as ->
    by (unfold field_size_at; by rewrite Hs, Hc).
  destruct (field_size_at h2 i) as [field_size|e]; [|done].
  simpl. by rewrite IH.
Qed.

Lemma row_geometry_ext (h1 h2 : hinfo) :
  fields h1 = fields h2 → sizes h1 = sizes h2 → counts h1 = counts h2 →
  row_geometry h1 = row_geometry h2.
Proof.
  intros Hf Hs Hc.
  assert (∀ fs, field_offsets 0 fs h1 0 = field_offsets 0 fs h2 0) as Hfo
    by (intros fs; by apply field_offsets_ext).
  unfold row_geometry. rewrite Hf, Hs, Hc.
  destruct (sizes h2), (counts h2); try done.
  destruct (fields h2) as [fs|]; [|done]. simpl.
  by rewrite Hfo.
Qed.

(** C1 (as the code has it).  For a file whose header declares encoding
    binary_compressed the report carries the note that the data needs
    decompression, and the sample reader is entered all the same: it reads
    and decodes rows of the payload exactly as for the same header with
    encoding binary, with the same stride, offsets, records and caught
    error.  The sample reader is skipped only when the encoding is neither
    binary nor binary_compressed. *)
Theorem compressed_is_read_like_binary (py_int : str → option Z)
    (data : list byte) (r : report) :
  analyze_pcd_file py_int (Some data) = Done r →
  let header_lines := (read_header (open data)).1 in
  let f := (read_header (open data)).2 in
  (data_type (r_header_info r) = Some (lit "binary_compressed") →
   r_format r = CompressedBinary
   ∧ r_points r
     = Some (read_points (r_header_info r) (r_row_size r) (r_data_start r)
               (r_file_size r) f)
   ∧ ∃ rb,
       analyze_parsed (getsize data) header_lines
         (set_data_type (lit "binary") (r_header_info r)) f = Done rb
       ∧ r_format rb = Binary
       ∧ r_row_size rb = r_row_size r
       ∧ r_offsets rb = r_offsets r
       ∧ r_points rb = r_points r)
  ∧ (data_type (r_header_info r) ≠ Some (lit "binary") →
     data_type (r_header_info r) ≠ Some (lit "binary_compressed") →
     r_points r = None).
Proof.
  intros Hdone header_lines f.
  apply analyze_done in Hdone as (header_info & Hparse & Hdone).
  fold header_lines f in Hdone.
  pose proof (analyze_parsed_done _ _ _ _ _ Hdone)
    as (Hgeom & Hsize & Hlines & Hinfo & Hstart & Hdsize & Hformat & Hpoints).
  rewrite Hinfo. split.
  - intros Hcomp.
    assert (reads_points header_info = true) as Hreads.
    { unfold reads_points, data_type_is. rewrite Hcomp.
      by rewrite orb_true_iff, !bool_decide_eq_true; right. }
    rewrite Hreads in Hpoints.
    split; [|split].
    + rewrite Hformat. unfold format_of, data_type_is.
      by rewrite bool_decide_true.
    + by rewrite Hpoints, Hstart, Hsize.
    + set (hb := set_data_type (lit "binary") header_info).
      assert (row_geometry hb = Ok (r_row_size r, r_offsets r)) as Hgb
        by (rewrite <- Hgeom; by apply row_geometry_ext).
      eexists. unfold analyze_parsed. rewrite Hgb.
      split; [done|]. cbn [r_format r_row_size r_offsets r_points].
      split; [done|]. split; [done|]. split; [done|].
      rewrite Hpoints.
      assert (reads_points hb = true) as -> by done.
      by rewrite (read_points_ext hb header_info).
  - intros Hnb Hnc. rewrite Hpoints.
    unfold reads_points, data_type_is.
    by rewrite !bool_decide_false.
Qed.

(** C2 (as the code has it).  When the header parses and no line of it
    starts with SIZE, or none starts with COUNT, the analysis returns
    normally: no stride is bound and no offset is printed, the data segment
    is reported as usual, and no record is decoded.  The sample reader either
    is not entered (encoding neither binary nor binary_compressed), or
    attempts nothing (no positive point count), or fails on its first use of
    the unbound stride inside its own handler, which reports the error. *)
Theorem missing_size_or_count_degrades (py_int : str → option Z)
    (data : list byte) (header_info : hinfo) :
  let header_lines := (read_header (open data)).1 in
  let f := (read_header (open data)).2 in
  parse_header py_int header_lines = Ok header_info →
  Forall (λ l, startswith l (keyword SIZE) = false) header_lines
  ∨ Forall (λ l, startswith l (keyword COUNT) = false) header_lines →
  ∃ r,
    analyze_pcd_file py_int (Some data) = Done r
    ∧ r_header_lines r = header_lines
    ∧ r_header_info r = header_info
    ∧ r_row_size r = None
    ∧ r_offsets r = []
    ∧ r_data_start r = tell f
    ∧ r_data_size r = getsize data - tell f
    ∧ r_format r = format_of header_info
    ∧ r_points r
      = if reads_points header_info
        then Some ([], if 0 <? Z.min 3 (declared_points header_info)
                       then Some UnboundLocalError else None)
        else None.
Proof.
  intros header_lines f Hparse Hmiss.
  assert (row_geometry header_info = Ok (None, [])) as Hgeom.
  { unfold row_geometry. destruct Hmiss as [Hall|Hall].
    - pose proof (parse_lines_keeps py_int _ _ _ SIZE Hparse Hall) as H.
      simpl in H. by destruct (sizes header_info).
    - pose proof (parse_lines_keeps py_int _ _ _ COUNT Hparse Hall) as H.
      simpl in H. destruct (counts header_info); [done|].
      by destruct (sizes header_info). }
  rewrite (analyze_parsed_ok py_int data header_info Hparse).
  fold header_lines f. unfold analyze_parsed. rewrite Hgeom.
  eexists. split; [done|]. cbn.
  repeat (split; [done|]).
  by rewrite read_points_unbound.
Qed.

(** ** The properties on sample files *)

Ltac by_computation :=
  first
    [ reflexivity
    | vm_compute; reflexivity
    | lia
    | apply (bool_decide_unpack _); vm_compute; exact I ].

(** Scenario B of the specification: the xyz header with encoding
    binary_compressed in front of two rows.  Both rows are read and decoded
    as they stand. *)
Lemma compressed_payload_is_decoded :
  ∃ r,
    analyze_pcd_file int_ascii (Some (xyz_file "binary_compressed")) = Done r
    ∧ data_type (r_header_info r) = Some (lit "binary_compressed")
    ∧ r_format r = CompressedBinary
    ∧ r_points r = Some (xyz_records, None)
    ∧ length xyz_records = 2%nat.
Proof. eexists. repeat split; vm_compute; reflexivity. Qed.

(** Without FIELDS, or with fewer sizes than fields, an exception leaves the
    analysis; with more sizes and counts than fields the stride counts them
    all and a row of that stride is decoded. *)
Lemma unchecked_schema_is_used :
  analyze_pcd_file int_ascii (Some no_fields_file) = Raised KeyError
  ∧ analyze_pcd_file int_ascii (Some short_size_file) = Raised IndexError
  ∧ ∃ r,
      analyze_pcd_file int_ascii (Some long_size_file) = Done r
      ∧ fields (r_header_info r) = Some [lit "x"]
      ∧ sizes (r_header_info r) = Some [1; 1]
      ∧ counts (r_header_info r) = Some [1; 1]
      ∧ r_row_size r = Some 2
      ∧ r_offsets r = [(lit "x", 0, 1)]
      ∧ r_points r = Some ([[(lit "x", VUInt8 65)]], None).
Proof.
  split; [by vm_compute|]. split; [by vm_compute|].
  eexists. repeat split; vm_compute; reflexivity.
Qed.

(** A line whose first token is SIZES or WIDTHX is taken for a SIZE or WIDTH
    directive. *)
Lemma longer_first_token_is_a_directive :
  split (lit "SIZES 4 4") = [lit "SIZES"; lit "4"; lit "4"]
  ∧ (lit "SIZES" ∉ map keyword directives)
  ∧ parse_line int_ascii empty_info (lit "SIZES 4 4")
    = Ok (set_sizes [4; 4] empty_info)
  ∧ split (lit "WIDTHX 7") = [lit "WIDTHX"; lit "7"]
  ∧ (lit "WIDTHX" ∉ map keyword directives)
  ∧ parse_line int_ascii empty_info (lit "WIDTHX 7")
    = Ok (set_width 7 empty_info).
Proof. repeat split; by_computation. Qed.

(** The signalling NaN 7FA00000, bytes 00 00 A0 7F, written as the field y
    of a row: the float read is the quiet NaN 7FE00000, bytes 00 00 E0 7F,
    not the pattern written. *)
Lemma signalling_nan_is_not_recovered :
  pack_f 2141192192 = [Byte.x00; Byte.x00; Byte.xa0; Byte.x7f]
  ∧ unpack_f (slice (pack_f 1 ++ pack_f 2141192192 ++ pack_f 2) 4 8)
    = Ok (VFloat 2145386496)
  ∧ decode_point (xyz_info "binary")
      (pack_f 1 ++ pack_f 2141192192 ++ pack_f 2)
    = ([ (lit "x", VFloat 1); (lit "y", VFloat 2145386496);
         (lit "z", VFloat 2) ], None)
  ∧ pack_f 2145386496 = [Byte.x00; Byte.x00; Byte.xe0; Byte.x7f]
  ∧ VFloat 2145386496 ≠ VFloat 2141192192.
Proof. repeat split; try by_computation. discriminate. Qed.

Lemma header_lexer_stops_at_sentinel_witness :
  read_header (open (xyz_file "binary"))
  = (map lit (xyz_header "binary"),
     {| content := xyz_file "binary"; pos := 57 |})
  ∧ read_header (open (bytes_of "FIELDS x"))
    = ([lit "FIELDS x"], {| content := bytes_of "FIELDS x"; pos := 8 |}).
Proof.
  destruct (header_lexer_stops_at_sentinel (xyz_file "binary")) as [H _].
  destruct (header_lexer_stops_at_sentinel (bytes_of "FIELDS x")) as [_ H'].
  split.
  - refine (H (map lit ["FIELDS x y z"; "SIZE 4 4 4"; "COUNT 1 1 1";
                        "POINTS 2"]%string)
              (lit "DATA binary") _ _ _ _); by_computation.
  - refine (H' _); by_computation.
Defined.

Lemma row_geometry_packed_witness :
  ∃ rows,
    row_geometry (xyz_info "binary") = Ok (Some 12, rows)
    ∧ length rows = 3%nat
    ∧ rows !! 2%nat = Some (lit "z", 8, 4).
Proof.
  destruct (row_geometry_packed (xyz_info "binary")
              [lit "x"; lit "y"; lit "z"] [4; 4; 4] [1; 1; 1]
              eq_refl eq_refl eq_refl eq_refl eq_refl)
    as (rows & Hgeom & _ & Hlen & Hrow & _).
  exists rows. split; [exact Hgeom|]. split; [exact Hlen|].
  exact (Hrow 2%nat (lit "z") 4 1 eq_refl eq_refl eq_refl).
Defined.

Lemma decode_by_span_only_witness :
  decode_point (xyz_info "binary") (take 12 xyz_payload)
  = ([ (lit "x", VFloat 1065353216); (lit "y", VFloat 1073741824);
       (lit "z", VFloat 1077936128) ], None).
Proof.
  refine (proj1 (decode_by_span_only (xyz_info "binary")
                   [lit "x"; lit "y"; lit "z"] [4; 4; 4] [1; 1; 1]
                   (take 12 xyz_payload)
                   eq_refl eq_refl eq_refl _ _ _ _)).
  - simpl. lia.
  - simpl. lia.
  - by_computation.
  - vm_compute. discriminate.
Defined.

Lemma float_round_trip_witness :
  (unpack_f (slice (pack_f 1 ++ pack_f 3212836864 ++ pack_f 2) 4 8)
   = Ok (VFloat 3212836864)
   ∧ ∃ rec,
       decode_point (xyz_info "binary")
         (pack_f 1 ++ pack_f 3212836864 ++ pack_f 2) = (rec, None)
       ∧ (lit "y", VFloat 3212836864) ∈ rec)
  ∧ (unpack_f (slice (pack_f 1 ++ pack_f 2141192192 ++ pack_f 2) 4 8)
     = Ok (VFloat (Z.lor 2141192192 (2 ^ 22)))
     ∧ Z.lor 2141192192 (2 ^ 22) ≠ 2141192192).
Proof.
  split.
  - refine (proj1 (float_round_trip (xyz_info "binary")
                     [lit "x"; lit "y"; lit "z"] [4; 4; 4] [1; 1; 1] 1
                     (lit "y") 3212836864 (pack_f 1) (pack_f 2)
                     eq_refl eq_refl eq_refl _ _ _ eq_refl eq_refl
                     eq_refl _ _) eq_refl).
    + simpl. lia.
    + simpl. lia.
    + by_computation.
    + lia.
    + vm_compute. discriminate.
  - refine (proj2 (float_round_trip (xyz_info "binary")
                     [lit "x"; lit "y"; lit "z"] [4; 4; 4] [1; 1; 1] 1
                     (lit "y") 2141192192 (pack_f 1) (pack_f 2)
                     eq_refl eq_refl eq_refl _ _ _ eq_refl eq_refl
                     eq_refl _ _) eq_refl).
    + simpl. lia.
    + simpl. lia.
    + by_computation.
    + lia.
    + vm_compute. discriminate.
Defined.

Lemma sample_reader_stops_at_eof_witness :
  ∃ r recs,
    analyze_parsed 18 [] one_row_info one_row_file = Done r
    ∧ r_points r = Some (recs, None)
    ∧ length recs = 1%nat.
Proof.
  destruct (sample_reader_stops_at_eof one_row_info
              [lit "x"; lit "y"; lit "z"] [4; 4; 4] [1; 1; 1] []
              one_row_file
              eq_refl eq_refl eq_refl eq_refl eq_refl
              ltac:(discriminate)
              ltac:(by_computation) ltac:(by_computation)
              eq_refl ltac:(vm_compute; lia))
    as (r & recs & Hdone & _ & Hpoints & _ & _ & _ & _ & Hone).
  exists r, recs. split; [exact Hdone|]. split; [exact Hpoints|].
  exact (Hone eq_refl eq_refl).
Defined.

Lemma directive_dispatch_by_prefix_witness :
  (∃ h', parse_line int_ascii empty_info (lit "SIZES 4 4") = Ok h'
         ∧ entry SIZE h' = Some (Ints [4; 4]))
  ∧ parse_line int_ascii (xyz_info "ascii") (lit "VERSION 0.7")
    = Ok (xyz_info "ascii")
  ∧ ∃ v, values_of int_ascii POINTS (lit "POINTS 7") = Ok v
         ∧ entry POINTS (set_data_type (lit "ascii") (set_points 7 empty_info))
           = Some v.
Proof.
  destruct (directive_dispatch_by_prefix int_ascii) as (Hd & Hother & Hlast).
  split; [|split].
  - destruct (Hd empty_info (lit "SIZES 4 4") SIZE eq_refl)
      as (h' & Hparse & Hentry & _).
    exists h'. split; [exact Hparse | exact Hentry].
  - apply Hother. intros []; reflexivity.
  - refine (Hlast [lit "POINTS 1"] (lit "POINTS 7") [lit "DATA ascii"] _
              POINTS _ _ _); by_computation.
Defined.

Lemma data_segment_after_sentinel_witness :
  analyze_pcd_file int_ascii (Some (xyz_file "binary")) = Done xyz_report
  ∧ r_header_lines xyz_report = map lit (xyz_header "binary")
  ∧ r_data_start xyz_report = 57
  ∧ r_file_size xyz_report = 81
  ∧ r_data_size xyz_report = 81 - 57.
Proof.
  assert (analyze_pcd_file int_ascii (Some (xyz_file "binary"))
          = Done xyz_report) as Hdone by by_computation.
  split; [exact Hdone|].
  refine (data_segment_after_sentinel int_ascii (xyz_file "binary")
            (map lit ["FIELDS x y z"; "SIZE 4 4 4"; "COUNT 1 1 1";
                      "POINTS 2"]%string)
            (lit "DATA binary") _ xyz_report _ _ _ Hdone); by_computation.
Defined.

Lemma no_points_no_records_witness :
  ∃ r,
    analyze_pcd_file int_ascii (Some no_points_file) = Done r
    ∧ r_row_size r = Some 12
    ∧ r_points r = Some ([], None).
Proof.
  eexists. split; [by_computation|]. split; [reflexivity|].
  refine (proj2 (no_points_no_records int_ascii) no_points_file _ _ _ _);
    by_computation.
Defined.

Lemma compressed_is_read_like_binary_witness :
  ∃ r rb,
    analyze_pcd_file int_ascii (Some (xyz_file "binary_compressed")) = Done r
    ∧ r_format r = CompressedBinary
    ∧ r_format rb = Binary
    ∧ r_points rb = r_points r
    ∧ r_points r = Some (xyz_records, None).
Proof.
  eexists.
  assert (analyze_pcd_file int_ascii (Some (xyz_file "binary_compressed"))
          = Done _) as Hdone by by_computation.
  destruct (proj1 (compressed_is_read_like_binary int_ascii
                     (xyz_file "binary_compressed") _ Hdone) eq_refl)
    as (Hformat & _ & rb & _ & Hfb & _ & _ & Hpoints).
  exists rb. split; [exact Hdone|]. split; [exact Hformat|].
  split; [exact Hfb|]. split; [exact Hpoints|]. reflexivity.
Defined.

Lemma missing_size_or_count_degrades_witness :
  ∃ r,
    analyze_pcd_file int_ascii (Some no_count_file) = Done r
    ∧ r_row_size r = None
    ∧ r_offsets r = []
    ∧ r_data_start r = 45
    ∧ r_data_size r = 24
    ∧ r_points r = Some ([], Some UnboundLocalError).
Proof.
  destruct (missing_size_or_count_degrades int_ascii no_count_file
              no_count_info ltac:(by_computation)
              ltac:(right; by_computation))
    as (r & Hdone & _ & _ & Hrow & Hoff & Hstart & Hsize & _ & Hpoints).
  exists r. split; [exact Hdone|]. split; [exact Hrow|].
  split; [exact Hoff|]. split; [exact Hstart|]. split; [exact Hsize|].
  exact Hpoints.
Defined.

(** * Further properties of [analyze_pcd_file] *)

(** ** The data segment *)

Lemma scan_consumed (raw : list (list byte)) :
  ((scan raw).2 ≤ length (concat raw))%nat.
Proof.
  induction raw as [|l raw IH]; simpl; [lia|].
  destruct (is_sentinel (line_text l)); simpl.
  - rewrite length_app. lia.
  - destruct (scan raw) as [hl n]. simpl in *. rewrite length_app. lia.
Qed.

Lemma read_header_cursor (data : list byte) :
  content (read_header (open data)).2 = data
  ∧ (pos (read_header (open data)).2 ≤ length data)%nat.
Proof.
  rewrite read_header_scan. simpl. split; [done|].
  pose proof (scan_consumed (lines data)) as H.
  by rewrite lines_concat in H.
Qed.

(** X1.  Whatever the file, the data segment of a report lies inside the
    file: its start is between 0 and the file size, its size is not negative,
    and start plus size is the file size. *)
Theorem data_segment_within_file (py_int : str → option Z)
    (data : list byte) (r : report) :
  analyze_pcd_file py_int (Some data) = Done r →
  r_file_size r = getsize data
  ∧ 0 ≤ r_data_start r ≤ r_file_size r
  ∧ 0 ≤ r_data_size r
  ∧ r_data_start r + r_data_size r = r_file_size r.
Proof.
  intros Hdone.
  apply analyze_done in Hdone as (header_info & _ & Hdone).
  apply analyze_parsed_done in Hdone
    as (_ & Hsize & _ & _ & Hstart & Hdsize & _).
  destruct (read_header_cursor data) as [_ Hpos].
  unfold tell in *. unfold getsize in *. lia.
Qed.

(** ** The sample reader on any header *)

Lemma points_loop_stops_at_eof (idxs : list nat) (header_info : hinfo)
    (row_size file_size : Z) (f : file) :
  0 < row_size →
  points_loop idxs header_info (Some row_size) file_size file_size f
  = ([], None).
Proof.
  intros Hpos. destruct idxs as [|i idxs]; [done|]. simpl.
  destruct (Z.gtb_spec (file_size + (Z.of_nat i + 1) * row_size) file_size);
    [done|nia].
Qed.

(** X2.  When no line of the file is a sentinel, the lexer runs to the end of
    the file: the data segment starts at the file size and is empty, and with
    a positive stride the sample reader, if it is entered at all, prints no
    point and meets no error. *)
Theorem short_header_reads_nothing (py_int : str → option Z)
    (data : list byte) (r : report) :
  Forall (λ l, l ∉ sentinels) (map line_text (lines data)) →
  analyze_pcd_file py_int (Some data) = Done r →
  r_header_lines r = map line_text (lines data)
  ∧ r_data_start r = r_file_size r
  ∧ r_data_size r = 0
  ∧ (∀ row_size, r_row_size r = Some row_size → 0 < row_size →
       r_points r = None ∨ r_points r = Some ([], None)).
Proof.
  intros Hall Hdone.
  apply analyze_done in Hdone as (header_info & _ & Hdone).
  apply analyze_parsed_done in Hdone
    as (_ & Hsize & Hlines & _ & Hstart & Hdsize & _ & Hpoints).
  rewrite read_header_scan in Hlines, Hstart, Hdsize, Hpoints.
  rewrite (scan_no_sentinel (lines data) Hall) in Hlines, Hstart, Hdsize,
    Hpoints.
  rewrite lines_concat in Hstart, Hdsize, Hpoints.
  simpl in Hlines, Hstart, Hdsize, Hpoints. unfold tell in *.
  simpl in Hstart, Hdsize, Hpoints. unfold getsize in *.
  split; [done|]. split; [lia|]. split; [lia|].
  intros row_size Hrow Hpos. rewrite Hpoints.
  destruct (reads_points header_info); [right|by left].
  rewrite Hrow. unfold read_points.
  by rewrite points_loop_stops_at_eof.
Qed.

(** The loop prints at most one point per index, and with a stride that is
    not negative the last row it printed ends inside the file. *)
Lemma points_loop_bounds (n i : nat) (header_info : hinfo) (row_size : Z)
    (data_start file_size : Z) (f : file) (recs : list record)
    (e : option exn) :
  0 ≤ row_size →
  points_loop (seq i n) header_info (Some row_size) data_start file_size f
  = (recs, e) →
  (length recs ≤ n)%nat
  ∧ (recs ≠ [] →
     data_start + Z.of_nat (i + length recs) * row_size ≤ file_size).
Proof.
  intros Hrow. revert i f recs e.
  induction n as [|n IH]; intros i f recs e Hloop; simpl in Hloop.
  - injection Hloop as <- <-. split; [simpl; lia|done].
  - destruct (Z.gtb_spec (data_start + (Z.of_nat i + 1) * row_size)
                file_size) as [Hpast|Hin].
    { injection Hloop as <- <-. split; [simpl; lia|done]. }
    destruct (read row_size f) as [[row_data f']|e'].
    2:{ injection Hloop as <- <-. split; [simpl; lia|done]. }
    destruct (Z.of_nat (length row_data) <? row_size).
    { injection Hloop as <- <-. split; [simpl; lia|done]. }
    destruct (decode_point header_info row_data) as [point [e'|]].
    { injection Hloop as <- <-. simpl. split; [lia|]. intros _. lia. }
    destruct (points_loop (seq (S i) n) header_info (Some row_size)
                data_start file_size f') as [more e'] eqn:Hmore.
    injection Hloop as <- <-.
    destruct (IH (S i) f' more e' Hmore) as [Hlen Hend].
    simpl. split; [lia|]. intros _.
    destruct more as [|p more]; [simpl; lia|].
    specialize (Hend ltac:(done)). simpl in *. lia.
Qed.

Lemma points_loop_length (idxs : list nat) (header_info : hinfo)
    (row_size : option Z) (data_start file_size : Z) (f : file) :
  (length (points_loop idxs header_info row_size data_start file_size f).1
   ≤ length idxs)%nat.
Proof.
  revert f. induction idxs as [|i idxs IH]; intros f; simpl; [lia|].
  destruct row_size as [row_size|]; [|simpl; lia].
  destruct (_ >? _); [simpl; lia|].
  destruct (read row_size f) as [[row_data f']|e]; [|simpl; lia].
  destruct (_ <? _); [simpl; lia|].
  destruct (decode_point header_info row_data) as [point [e|]];
    [simpl; lia|].
  specialize (IH f').
  destruct (points_loop idxs header_info (Some row_size) data_start
              file_size f') as [more e].
  simpl in *. lia.
Qed.

(** X3.  Whatever the header declares, the sample reader prints at most
    three points and no more than the declared point count; with a stride
    that is not negative, the rows it printed all lie inside the data
    segment. *)
Theorem sample_reader_at_most_three (py_int : str → option Z)
    (data : list byte) (r : report) (recs : list record) (e : option exn) :
  analyze_pcd_file py_int (Some data) = Done r →
  r_points r = Some (recs, e) →
  (length recs ≤ 3)%nat
  ∧ Z.of_nat (length recs) ≤ Z.max 0 (declared_points (r_header_info r))
  ∧ (∀ row_size, r_row_size r = Some row_size → 0 ≤ row_size →
       Z.of_nat (length recs) * row_size ≤ r_data_size r).
Proof.
  intros Hdone Hrecs.
  pose proof (data_segment_bounds := read_header_cursor data).
  apply analyze_done in Hdone as (header_info & _ & Hdone).
  apply analyze_parsed_done in Hdone
    as (_ & Hsize & _ & Hinfo & Hstart & Hdsize & _ & Hpoints).
  rewrite Hpoints in Hrecs. rewrite Hinfo.
  destruct (reads_points header_info); [|done].
  injection Hrecs as Hrecs. unfold read_points, range in Hrecs.
  set (k := Z.min 3 (declared_points header_info)) in *.
  pose proof (points_loop_length (seq 0 (Z.to_nat k)) header_info
                (r_row_size r) (tell (read_header (open data)).2)
                (getsize data)
                (seek (tell (read_header (open data)).2)
                   (read_header (open data)).2)) as Hlen.
  rewrite Hrecs, length_seq in Hlen. simpl in Hlen.
  split; [lia|]. split; [lia|].
  intros row_size Hrow Hnn. rewrite Hrow in Hrecs.
  destruct (points_loop_bounds _ _ _ _ _ _ _ _ _ Hnn Hrecs) as [_ Hend].
  destruct data_segment_bounds as [_ Hpos].
  destruct recs as [|p recs].
  - simpl. unfold tell, getsize in *. lia.
  - specialize (Hend ltac:(done)). simpl in Hend. simpl length. lia.
Qed.

(** ** Decoded values *)

Lemma le_bits_bound (data : list byte) :
  0 ≤ le_bits data < 256 ^ Z.of_nat (length data).
Proof.
  induction data as [|b data IH]; simpl le_bits; simpl length; [lia|].
  pose proof (byte_val_range b).
  rewrite Nat2Z.inj_succ, Z.pow_succ_r by lia. lia.
Qed.

Lemma decode_field_ok (field : str) (field_size : Z) (field_data : list byte)
    (printed : record) :
  decode_field field field_size field_data = Ok printed →
  (length printed ≤ 1)%nat
  ∧ ∀ name v, (name, v) ∈ printed → name = field ∧ value_ok v.
Proof.
  unfold decode_field, unpack_f, unpack_B.
  destruct (field_size =? 4).
  - case_bool_decide as Hlen; simpl; [|done]. intros [= <-].
    split; [simpl; lia|]. intros name v [= -> ->]%list_elem_of_singleton.
    split; [done|]. simpl. pose proof (le_bits_bound field_data) as H.
    rewrite Hlen in H. by apply quieted_bound.
  - destruct (field_size =? 1).
    + case_bool_decide as Hlen; simpl; [|done]. intros [= <-].
      split; [simpl; lia|]. intros name v [= -> ->]%list_elem_of_singleton.
      split; [done|]. simpl. pose proof (le_bits_bound field_data) as H.
      rewrite Hlen in H. exact H.
    + intros [= <-]. split; [simpl; lia|]. by intros name v ?%elem_of_nil.
Qed.

Lemma decode_fields_ok (fs : list str) (j : nat) (header_info : hinfo)
    (row : list byte) (off : Z) :
  (length (decode_fields j fs header_info row off).1 ≤ length fs)%nat
  ∧ ∀ name v, (name, v) ∈ (decode_fields j fs header_info row off).1 →
      name ∈ fs ∧ value_ok v.
Proof.
  revert j off. induction fs as [|f fs IH]; intros j off; simpl.
  - split; [lia|]. by intros name v ?%elem_of_nil.
  - destruct (field_size_at header_info j) as [field_size|e]; simpl.
    2:{ split; [lia|]. by intros name v ?%elem_of_nil. }
    destruct (decode_field f field_size _) as [printed|e] eqn:Hfield; simpl.
    2:{ split; [lia|]. by intros name v ?%elem_of_nil. }
    destruct (decode_field_ok _ _ _ _ Hfield) as [Hlen Hprinted].
    specialize (IH (S j) (off + field_size)).
    destruct (decode_fields (S j) fs header_info row (off + field_size))
      as [rest e]. simpl in *. destruct IH as [IHlen IHrest].
    split; [rewrite length_app; lia|].
    intros name v [Hin|Hin]%elem_of_app.
    + destruct (Hprinted name v Hin) as [-> Hv]. split; [left|done].
    + destruct (IHrest name v Hin) as [Hname Hv]. split; [by right|done].
Qed.

Lemma points_loop_ok (idxs : list nat) (header_info : hinfo)
    (row_size : option Z) (data_start file_size : Z) (f : file)
    (P : record → Prop) :
  (∀ row, P (decode_point header_info row).1) →
  Forall P
    (points_loop idxs header_info row_size data_start file_size f).1.
Proof.
  intros HP. revert f. induction idxs as [|i idxs IH]; intros f; simpl;
    [constructor|].
  destruct row_size as [row_size|]; [|constructor].
  destruct (_ >? _); [constructor|].
  destruct (read row_size f) as [[row_data f']|e]; [|constructor].
  destruct (_ <? _); [constructor|].
  specialize (HP row_data).
  destruct (decode_point header_info row_data) as [point [e|]]; simpl in *.
  - by repeat constructor.
  - specialize (IH f').
    destruct (points_loop idxs header_info (Some row_size) data_start
                file_size f') as [more e].
    by constructor.
Qed.

(** X4.  In every printed point, whatever the header and the payload, each
    value is printed under the name of a declared field, a float value is a
    32-bit pattern and a byte value lies between 0 and 255, and a point has
    at most one value per declared field. *)
Theorem decoded_values_in_range (py_int : str → option Z)
    (data : list byte) (r : report) (recs : list record) (e : option exn)
    (point : record) :
  analyze_pcd_file py_int (Some data) = Done r →
  r_points r = Some (recs, e) →
  point ∈ recs →
  ∃ fs, fields (r_header_info r) = Some fs
        ∧ (length point ≤ length fs)%nat
        ∧ ∀ name v, (name, v) ∈ point → name ∈ fs ∧ value_ok v.
Proof.
  intros Hdone Hrecs Hpoint.
  apply analyze_done in Hdone as (header_info & _ & Hdone).
  apply analyze_parsed_done in Hdone
    as (Hgeom & _ & _ & Hinfo & _ & _ & _ & Hpoints).
  rewrite Hpoints in Hrecs. rewrite Hinfo.
  destruct (reads_points header_info); [|done].
  injection Hrecs as Hrecs. unfold read_points in Hrecs.
  destruct (r_row_size r) as [row_size|].
  2:{ rewrite points_loop_unbound in Hrecs. injection Hrecs as <- _.
      by apply elem_of_nil in Hpoint. }
  assert (∃ fs, fields header_info = Some fs) as [fs Hfs].
  { unfold row_geometry in Hgeom.
    destruct (sizes header_info), (counts header_info); try done.
    destruct (fields header_info) as [fs|]; [by exists fs|done]. }
  exists fs. split; [done|].
  set (P := λ p : record,
         (length p ≤ length fs)%nat
         ∧ ∀ name v, (name, v) ∈ p → name ∈ fs ∧ value_ok v).
  assert (∀ row, P (decode_point header_info row).1) as HP.
  { intros row. unfold decode_point, P. rewrite Hfs.
    apply decode_fields_ok. }
  pose proof (points_loop_ok
                (range (Z.min 3 (declared_points header_info))) header_info
                (Some row_size) (tell (read_header (open data)).2)
                (getsize data)
                (seek (tell (read_header (open data)).2)
                   (read_header (open data)).2) P HP) as Hall.
  rewrite Hrecs in Hall. simpl in Hall.
  rewrite Forall_forall in Hall.
  apply Hall. by apply list_elem_of_In.
Qed.

(** ** Header lines *)

Lemma lstrip_suffix (s : str) : ∃ w, s = w ++ lstrip s.
Proof.
  induction s as [|c s [w IH]]; simpl; [by exists []|].
  destruct (isspace c); [|by exists []].
  exists (c :: w). simpl. by rewrite <- IH.
Qed.

Lemma lstrip_head (s : str) (c : char) :
  list.head (lstrip s) = Some c → isspace c = false.
Proof.
  induction s as [|c' s IH]; simpl; [done|].
  destruct (isspace c') eqn:Hc; [done|]. by intros [= <-].
Qed.

Lemma strip_ends (s : str) (c : char) :
  list.head (strip s) = Some c ∨ list.last (strip s) = Some c → isspace c = false.
Proof.
  unfold strip, rstrip. set (t := lstrip s).
  destruct (lstrip_suffix (rev t)) as [w Hw].
  set (u := lstrip (rev t)) in *.
  intros [Hhead|Hlast].
  - apply (lstrip_head s). fold t.
    rewrite <- (rev_involutive t), Hw, rev_app_distr.
    destruct (rev u); [done|]. exact Hhead.
  - apply (lstrip_head (rev t)). fold u.
    destruct u as [|c' u]; [done|].
    simpl in Hlast. by rewrite last_snoc in Hlast.
Qed.

Lemma scan_texts (raw : list (list byte)) :
  Forall (λ l, ∃ line, l = line_text line) (scan raw).1.
Proof.
  induction raw as [|line raw IH]; simpl; [constructor|].
  destruct (is_sentinel (line_text line)); simpl.
  - repeat constructor. by exists line.
  - destruct (scan raw) as [hl n]. simpl in *. constructor; [|done].
    by exists line.
Qed.

(** X5.  No header line the lexer returns begins or ends with a white-space
    character; in particular none keeps its line terminator. *)
Theorem header_lines_are_stripped (data : list byte) (l : str) (c : char) :
  l ∈ (read_header (open data)).1 →
  list.head l = Some c ∨ list.last l = Some c →
  isspace c = false.
Proof.
  rewrite read_header_scan. simpl. intros Hl Hends.
  pose proof (scan_texts (lines data)) as Hall.
  rewrite Forall_forall in Hall.
  destruct (Hall l) as [line ->]; [by apply list_elem_of_In|].
  by apply (strip_ends (decode_ignore line)).
Qed.

(** X6.  When the last header line of a report is a sentinel, the encoding
    recorded in [header_info] is the one that sentinel names, whatever DATA
    lines came before it, and the format note and the entry into the sample
    reader follow it. *)
Theorem sentinel_sets_encoding (py_int : str → option Z)
    (data : list byte) (r : report) (s : str) :
  analyze_pcd_file py_int (Some data) = Done r →
  list.last (r_header_lines r) = Some s →
  s ∈ sentinels →
  (s = lit "DATA binary_compressed"
   ∧ data_type (r_header_info r) = Some (lit "binary_compressed")
   ∧ r_format r = CompressedBinary ∧ is_Some (r_points r))
  ∨ (s = lit "DATA binary"
     ∧ data_type (r_header_info r) = Some (lit "binary")
     ∧ r_format r = Binary ∧ is_Some (r_points r))
  ∨ (s = lit "DATA ascii"
     ∧ data_type (r_header_info r) = Some (lit "ascii")
     ∧ r_format r = Ascii ∧ r_points r = None).
Proof.
  intros Hdone Hlast Hs.
  apply analyze_done in Hdone as (header_info & Hparse & Hdone).
  apply analyze_parsed_done in Hdone
    as (_ & _ & Hlines & Hinfo & _ & _ & Hformat & Hpoints).
  rewrite Hinfo, Hformat, Hpoints. rewrite <- Hlines in Hparse.
  apply last_Some in Hlast as [before Hbefore]. rewrite Hbefore in Hparse.
  assert (startswith s (keyword DATA) = true) as Hdata.
  { unfold sentinels in Hs.
    repeat (apply elem_of_cons in Hs as [->|Hs]; [done|]).
    by apply elem_of_nil in Hs. }
  destruct (parse_lines_last_wins py_int before [] s empty_info header_info
              DATA Hparse Hdata ltac:(constructor)) as (v & Hv & Hentry).
  simpl in Hentry.
  destruct (data_type header_info) as [enc|] eqn:Henc; [|done].
  injection Hentry as <-.
  unfold format_of, reads_points, data_type_is. rewrite Henc.
  unfold sentinels in Hs.
  apply elem_of_cons in Hs as [->|Hs].
  { left. assert (enc = lit "binary_compressed") as ->
      by (vm_compute in Hv; by injection Hv as <-).
    by repeat split. }
  apply elem_of_cons in Hs as [->|Hs].
  { right; left. assert (enc = lit "binary") as ->
      by (vm_compute in Hv; by injection Hv as <-).
    by repeat split. }
  apply elem_of_cons in Hs as [->|Hs]; [|by apply elem_of_nil in Hs].
  right; right. assert (enc = lit "ascii") as ->
    by (vm_compute in Hv; by injection Hv as <-).
  by repeat split.
Qed.

(** ** Row geometry on any header *)

Lemma Zsum_Permutation (l k : list Z) : l ≡ₚ k → Zsum l = Zsum k.
Proof. induction 1; simpl; lia. Qed.

Lemma spans_zip (ss cs : list Z) :
  spans ss cs = (λ p, p.1 * p.2) <$> zip ss cs.
Proof.
  revert cs. induction ss as [|s ss IH]; intros [|c cs]; simpl; try done.
  f_equal. apply IH.
Qed.

(** X7.  Reordering the fields of a header, each with its size and count,
    leaves the stride unchanged: two headers whose (field, size, count)
    triples are permutations of each other get the same [row_size]. *)
Theorem stride_independent_of_field_order (h h' : hinfo)
    (fs fs' : list str) (ss cs ss' cs' : list Z) :
  fields h = Some fs → sizes h = Some ss → counts h = Some cs →
  length ss = length fs → length cs = length fs →
  fields h' = Some fs' → sizes h' = Some ss' → counts h' = Some cs' →
  length ss' = length fs' → length cs' = length fs' →
  zip fs (zip ss cs) ≡ₚ zip fs' (zip ss' cs') →
  ∃ stride rows rows',
    row_geometry h = Ok (Some stride, rows)
    ∧ row_geometry h' = Ok (Some stride, rows')
    ∧ stride = row_size_of ss cs
    ∧ length rows = length rows'.
Proof.
  intros Hfs Hss Hcs Hls Hlc Hfs' Hss' Hcs' Hls' Hlc' Hperm.
  rewrite (row_geometry_aligned h fs ss cs) by done.
  rewrite (row_geometry_aligned h' fs' ss' cs') by done.
  assert (zip ss cs ≡ₚ zip ss' cs') as Hpairs.
  { rewrite <- (snd_zip fs (zip ss cs)), <- (snd_zip fs' (zip ss' cs')).
    - by apply fmap_Permutation.
    - rewrite length_zip_with. lia.
    - rewrite length_zip_with. lia. }
  assert (Zsum (spans ss cs) = Zsum (spans ss' cs')) as Hsum.
  { rewrite !spans_zip. apply Zsum_Permutation. by apply fmap_Permutation. }
  eexists _, _, _. split; [done|]. split; [by rewrite Hsum|].
  split; [by rewrite row_size_of_Zsum|].
  rewrite !layout_length.
  apply Permutation_length in Hperm. rewrite !length_zip_with in Hperm.
  unfold spans. rewrite !length_zip_with. lia.
Qed.

Lemma field_size_at_beyond (header_info : hinfo) (ss cs : list Z) (i : nat) :
  sizes header_info = Some ss → counts header_info = Some cs →
  (length (spans ss cs) ≤ i)%nat →
  field_size_at header_info i = Raise IndexError.
Proof.
  intros Hss Hcs Hlen. unfold field_size_at. rewrite Hss, Hcs. simpl.
  unfold spans in Hlen. rewrite length_zip_with in Hlen.
  unfold index. destruct (ss !! i) as [s|] eqn:Hs; simpl; [|done].
  apply lookup_lt_Some in Hs.
  rewrite (lookup_ge_None_2 cs i) by lia. done.
Qed.

(** More fields than sizes or counts: the offset loop runs out of them. *)
Lemma field_offsets_short (header_info : hinfo) (ss cs : list Z)
    (fs : list str) (i : nat) (off : Z) :
  sizes header_info = Some ss → counts header_info = Some cs →
  (i ≤ length (spans ss cs) < i + length fs)%nat →
  field_offsets i fs header_info off = Raise IndexError.
Proof.
  intros Hss Hcs. revert i off.
  induction fs as [|f fs IH]; intros i off Hlen; simpl in *; [lia|].
  destruct (decide (i < length (spans ss cs))%nat) as [Hi|Hi].
  - destruct (lookup_lt_is_Some_2 (spans ss cs) i Hi) as [s Hs].
    rewrite (field_size_at_spans _ _ _ _ _ Hss Hcs Hs). simpl.
    by rewrite IH by lia.
  - by rewrite (field_size_at_beyond _ ss cs) by (done || lia).
Qed.

(** X8.  The geometry step is skipped, binding no stride and printing no
    offset, exactly when SIZE or COUNT is absent.  Whenever it completes,
    FIELDS is present with no more fields than sizes and than counts, the
    stride sums [size * count] over all (size, count) pairs, also those
    beyond the last field, and the printed offsets pack the declared fields
    only.  With SIZE and COUNT present it never completes when FIELDS is
    absent or there are more fields than sizes or counts: an exception ends
    it. *)
Theorem row_geometry_completion (header_info : hinfo) :
  (row_geometry header_info = Ok (None, [])
   ↔ sizes header_info = None ∨ counts header_info = None)
  ∧ (∀ stride rows,
       row_geometry header_info = Ok (Some stride, rows) →
       ∃ fs ss cs,
         fields header_info = Some fs
         ∧ sizes header_info = Some ss
         ∧ counts header_info = Some cs
         ∧ (length fs ≤ min (length ss) (length cs))%nat
         ∧ stride = Zsum (spans ss cs)
         ∧ rows = layout fs (spans ss cs) 0
         ∧ length rows = length fs)
  ∧ (∀ ss cs,
       sizes header_info = Some ss →
       counts header_info = Some cs →
       fields header_info = None
       ∨ (∃ fs, fields header_info = Some fs
                ∧ (min (length ss) (length cs) < length fs)%nat) →
       ∃ e, row_geometry header_info = Raise e).
Proof.
  assert (∀ ss cs fs,
            sizes header_info = Some ss → counts header_info = Some cs →
            fields header_info = Some fs →
            if decide (length fs ≤ min (length ss) (length cs))%nat
            then row_geometry header_info
                 = Ok (Some (Zsum (spans ss cs)), layout fs (spans ss cs) 0)
                 ∧ length (layout fs (spans ss cs) 0) = length fs
            else row_geometry header_info = Raise IndexError) as Hcases.
  { intros ss cs fs Hss Hcs Hfs. unfold row_geometry.
    rewrite Hss, Hcs, Hfs. simpl.
    assert (length (spans ss cs) = min (length ss) (length cs)) as Hlen
      by (unfold spans; by rewrite length_zip_with).
    destruct (decide _) as [Hle|Hgt].
    - rewrite (field_offsets_layout header_info ss cs fs 0 0 Hss Hcs) by lia.
      simpl. rewrite drop_0, row_size_of_Zsum. split; [done|].
      rewrite layout_length. lia.
    - by rewrite (field_offsets_short header_info ss cs fs 0 0 Hss Hcs)
        by lia. }
  split; [|split].
  - unfold row_geometry.
    destruct (sizes header_info) as [ss|]; [|split; [by left|done]].
    destruct (counts header_info) as [cs|]; [|split; [by right|done]].
    split; [|by intros [|]].
    destruct (fields header_info) as [fs|]; simpl; [|done].
    by destruct (field_offsets 0 fs header_info 0).
  - intros stride rows Hok.
    destruct (sizes header_info) as [ss|] eqn:Hss.
    2:{ unfold row_geometry in Hok. by rewrite Hss in Hok. }
    destruct (counts header_info) as [cs|] eqn:Hcs.
    2:{ unfold row_geometry in Hok. by rewrite Hss, Hcs in Hok. }
    destruct (fields header_info) as [fs|] eqn:Hfs.
    2:{ unfold row_geometry in Hok. by rewrite Hss, Hcs, Hfs in Hok. }
    specialize (Hcases ss cs fs eq_refl eq_refl eq_refl).
    destruct (decide _) as [Hle|Hgt]; [|congruence].
    destruct Hcases as [Hgeom Hlen]. rewrite Hgeom in Hok.
    injection Hok as <- <-. by exists fs, ss, cs.
  - intros ss cs Hss Hcs [Hnone|(fs & Hfs & Hmore)].
    + exists KeyError. unfold row_geometry. by rewrite Hss, Hcs, Hnone.
    + exists IndexError. specialize (Hcases ss cs fs Hss Hcs Hfs).
      destruct (decide _); [lia|done].
Qed.

(** ** Schema builder on any header *)

(** [header_info] is determined by its eight entries. *)
Lemma hinfo_ext (h h' : hinfo) : (∀ d, entry d h = entry d h') → h = h'.
Proof.
  intros H. destruct h as [f s t c w g p a], h' as [f' s' t' c' w' g' p' a'].
  pose proof (H FIELDS) as H1. pose proof (H SIZE) as H2.
  pose proof (H TYPE) as H3. pose proof (H COUNT) as H4.
  pose proof (H WIDTH) as H5. pose proof (H HEIGHT) as H6.
  pose proof (H POINTS) as H7. pose proof (H DATA) as H8.
  simpl in *.
  assert (f = f') as -> by (destruct f, f'; simpl in *; congruence).
  assert (s = s') as -> by (destruct s, s'; simpl in *; congruence).
  assert (t = t') as -> by (destruct t, t'; simpl in *; congruence).
  assert (c = c') as -> by (destruct c, c'; simpl in *; congruence).
  assert (w = w') as -> by (destruct w, w'; simpl in *; congruence).
  assert (g = g') as -> by (destruct g, g'; simpl in *; congruence).
  assert (p = p') as -> by (destruct p, p'; simpl in *; congruence).
  assert (a = a') as -> by (destruct a, a'; simpl in *; congruence).
  done.
Qed.

(** Whether a line parses does not depend on what was parsed before; the
    entries it starts with the word of are set from the line, the others are
    kept. *)
Lemma parse_line_anywhere (py_int : str → option Z) (h h' h2 : hinfo)
    (line : str) :
  parse_line py_int h line = Ok h' →
  ∃ h2', parse_line py_int h2 line = Ok h2'
         ∧ ∀ d, entry d h2' = if startswith line (keyword d)
                              then entry d h' else entry d h2.
Proof.
  intros Hparse.
  destruct (keyword_cases line) as [[d0 Hd0]|Hnone].
  - pose proof (parse_line_prefix py_int h line d0 Hd0) as Hp.
    pose proof (parse_line_prefix py_int h2 line d0 Hd0) as Hp2.
    destruct (values_of py_int d0 line) as [v|e]; [|congruence].
    destruct Hp as (h1 & Hh1 & Hv & _).
    destruct Hp2 as (h2' & Hh2' & Hv2 & Hkeep2).
    rewrite Hparse in Hh1. injection Hh1 as <-.
    exists h2'. split; [done|]. intros d.
    destruct (startswith line (keyword d)) eqn:Hd.
    + destruct (decide (d = d0)) as [->|Hne]; [congruence|].
      by rewrite (keyword_exclusive line d0 d Hd0 Hne) in Hd.
    + apply Hkeep2. intros ->. congruence.
  - exists h2. split; [by apply parse_line_other|].
    intros d. by rewrite (Hnone d).
Qed.

(** Two lines that start with the words of different directives, or of
    none, can be parsed in either order. *)
Lemma parse_line_swap (py_int : str → option Z) (h hx hxy : hinfo)
    (x y : str) :
  (∀ d, startswith x (keyword d) = true → startswith y (keyword d) = false) →
  parse_line py_int h x = Ok hx →
  parse_line py_int hx y = Ok hxy →
  ∃ hy, parse_line py_int h y = Ok hy ∧ parse_line py_int hy x = Ok hxy.
Proof.
  intros Hdiff Hx Hy.
  destruct (parse_line_anywhere py_int hx hxy h y Hy) as (hy & Hhy & Ey).
  destruct (parse_line_anywhere py_int h hx hy x Hx) as (hyx & Hhyx & Ex).
  destruct (parse_line_anywhere py_int h hx h x Hx) as (hx' & Hhx' & Ex').
  rewrite Hx in Hhx'. injection Hhx' as <-.
  destruct (parse_line_anywhere py_int hx hxy hx y Hy) as (hxy' & Hhxy' & Ey').
  rewrite Hy in Hhxy'. injection Hhxy' as <-.
  exists hy. split; [done|]. rewrite Hhyx. f_equal.
  apply hinfo_ext. intros d. rewrite (Ex d), (Ey' d), (Ey d).
  destruct (startswith x (keyword d)) eqn:Hxd.
  - by rewrite (Hdiff d Hxd).
  - destruct (startswith y (keyword d)); [done|].
    by rewrite (Ex' d), Hxd.
Qed.

Lemma one_line_each_cons (x : str) (ls : list str) :
  one_line_each (x :: ls) →
  one_line_each ls
  ∧ ∀ y, y ∈ ls → ∀ d, startswith x (keyword d) = true →
      startswith y (keyword d) = false.
Proof.
  intros H. split.
  - intros d. specialize (H d). rewrite filter_cons in H.
    destruct (decide _); simpl in H; lia.
  - intros y Hy d Hx. specialize (H d). rewrite filter_cons in H.
    destruct (decide (startswith x (keyword d) = true)); [|done].
    simpl in H.
    destruct (startswith y (keyword d)) eqn:Hyd; [|done].
    assert (y ∈ filter (λ l, startswith l (keyword d) = true) ls) as Hin
      by by apply list_elem_of_filter.
    destruct (filter _ ls); [by apply elem_of_nil in Hin|simpl in H; lia].
Qed.

Lemma one_line_each_Permutation (ls ls' : list str) :
  ls ≡ₚ ls' → one_line_each ls → one_line_each ls'.
Proof.
  intros Hperm H d. specialize (H d).
  by rewrite <- Hperm.
Qed.

Lemma parse_lines_Permutation (py_int : str → option Z) (ls ls' : list str) :
  ls ≡ₚ ls' →
  ∀ h h1, one_line_each ls →
          parse_lines py_int h ls = Ok h1 →
          parse_lines py_int h ls' = Ok h1.
Proof.
  induction 1 as [|x l l' Hperm IH|x y l|l l' l'' Hp1 IH1 Hp2 IH2];
    intros h h1 Hone Hparse.
  - done.
  - simpl in *. destruct (parse_line py_int h x) as [hx|e]; [|done].
    simpl in *. apply IH; [|done].
    exact (proj1 (one_line_each_cons x l Hone)).
  - simpl in *.
    destruct (parse_line py_int h y) as [hy|e] eqn:Hy; [|done]. simpl in *.
    destruct (parse_line py_int hy x) as [hyx|e] eqn:Hx; [|done]. simpl in *.
    apply one_line_each_cons in Hone as [_ Hdiff].
    destruct (parse_line_swap py_int h hy hyx y x) as (hx & Hhx & Hhxy);
      [|done|done|].
    + intros d. apply Hdiff. by left.
    + rewrite Hhx. simpl. by rewrite Hhxy.
  - apply IH2; [by apply (one_line_each_Permutation l)|]. by apply IH1.
Qed.

(** X9.  When no two lines of a header start with the word of the same
    directive, the order of the lines does not matter: a header that parses
    gives the same [header_info] in any other order of its lines. *)
Theorem directive_order_is_irrelevant (py_int : str → option Z)
    (header_lines header_lines' : list str) (header_info : hinfo) :
  header_lines ≡ₚ header_lines' →
  one_line_each header_lines →
  parse_header py_int header_lines = Ok header_info →
  parse_header py_int header_lines' = Ok header_info.
Proof.
  intros Hperm Hone Hparse.
  by apply (parse_lines_Permutation py_int header_lines header_lines').
Qed.

Lemma ints_bad (py_int : str → option Z) (xs : list str) (x : str) :
  x ∈ xs → py_int x = None → ints py_int xs = Raise ValueError.
Proof.
  intros Hin Hx. induction xs as [|y xs IH]; [by apply elem_of_nil in Hin|].
  simpl. unfold int at 1.
  destruct (py_int y) as [n|] eqn:Hy; simpl; [|done].
  apply elem_of_cons in Hin as [->|Hin]; [congruence|].
  by rewrite IH.
Qed.

Lemma parse_lines_raise (py_int : str → option Z) (before after : list str)
    (line : str) (h0 h : hinfo) (e : exn) :
  parse_lines py_int h0 before = Ok h →
  parse_line py_int h line = Raise e →
  parse_lines py_int h0 (before ++ line :: after) = Raise e.
Proof.
  intros Hbefore Hline. rewrite parse_lines_app, Hbefore. simpl.
  by rewrite Hline.
Qed.

(** X10.  The first header line that cannot be read ends the analysis with
    its exception: [IndexError] for a WIDTH, HEIGHT, POINTS or DATA line
    without a second word, [ValueError] for a WIDTH, HEIGHT or POINTS line
    whose second word is no integer and for a SIZE or COUNT line with a word
    after the first that is no integer. *)
Theorem malformed_directive_raises (py_int : str → option Z)
    (data : list byte) (before after : list str) (line : str) (h : hinfo)
    (d : directive) :
  (read_header (open data)).1 = before ++ line :: after →
  parse_header py_int before = Ok h →
  startswith line (keyword d) = true →
  (d ∈ [WIDTH; HEIGHT; POINTS; DATA] → split line !! 1%nat = None →
   analyze_pcd_file py_int (Some data) = Raised IndexError)
  ∧ (d ∈ [WIDTH; HEIGHT; POINTS] →
     (∃ x, split line !! 1%nat = Some x ∧ py_int x = None) →
     analyze_pcd_file py_int (Some data) = Raised ValueError)
  ∧ (d ∈ [SIZE; COUNT] →
     (∃ x, x ∈ drop 1 (split line) ∧ py_int x = None) →
     analyze_pcd_file py_int (Some data) = Raised ValueError).
Proof.
  intros Hlines Hbefore Hd.
  assert (∀ e, values_of py_int d line = Raise e →
               analyze_pcd_file py_int (Some data) = Raised e) as Hraise.
  { intros e Hv. unfold analyze_pcd_file.
    destruct (read_header (open data)) as [header_lines f]. simpl in Hlines.
    rewrite Hlines. unfold parse_header.
    rewrite (parse_lines_raise py_int before after line empty_info h e);
      [done|done|].
    pose proof (parse_line_prefix py_int h line d Hd) as Hp.
    by rewrite Hv in Hp. }
  split; [|split].
  - intros Hin Hnone. apply Hraise.
    assert (index (split line) 1 = Raise IndexError) as Hi
      by (unfold index; by rewrite Hnone).
    repeat (apply elem_of_cons in Hin as [->|Hin]; [simpl; by rewrite Hi|]).
    by apply elem_of_nil in Hin.
  - intros Hin (x & Hx & Hint). apply Hraise.
    assert (index (split line) 1 = Ok x) as Hi
      by (unfold index; by rewrite Hx).
    assert (int py_int x = Raise ValueError) as Hv
      by (unfold int; by rewrite Hint).
    repeat (apply elem_of_cons in Hin as [->|Hin];
            [simpl; rewrite Hi; simpl; by rewrite Hv|]).
    by apply elem_of_nil in Hin.
  - intros Hin (x & Hx & Hint). apply Hraise.
    pose proof (ints_bad py_int _ x Hx Hint) as Hv.
    repeat (apply elem_of_cons in Hin as [->|Hin]; [simpl; by rewrite Hv|]).
    by apply elem_of_nil in Hin.
Qed.




Lemma first_line_end (bs : list byte) :
  first_line bs = bs
  ∨ ∃ b, first_line bs !! (length (first_line bs) - 1)%nat = Some b
         ∧ is_newline b = true.
Proof.
  induction bs as [|b bs IH]; simpl; [by left|].
  destruct (is_newline b) eqn:Hb.
  - right. exists b. by simpl.
  - destruct IH as [->|(b' & Hb' & Hnl)]; [by left|].
    right. exists b'. split; [|done]. simpl.
    destruct (first_line bs) as [|c l]; [done|].
    simpl in *. by rewrite Nat.sub_0_r in *.
Qed.

Lemma scan_boundary (fuel : nat) (bs : list byte) :
  (length bs < fuel)%nat →
  (scan (lines bs)).2 = length bs
  ∨ ∃ b, bs !! ((scan (lines bs)).2 - 1)%nat = Some b
         ∧ is_newline b = true
         ∧ (0 < (scan (lines bs)).2)%nat.
Proof.
  revert bs. induction fuel as [|fuel IH]; intros bs Hfuel; [lia|].
  destruct bs as [|b0 bs0] eqn:Hbs; [by left|]. rewrite <- Hbs in *.
  assert (bs ≠ []) as Hne by (rewrite Hbs; done).
  rewrite (lines_unfold bs Hne). simpl scan.
  set (l := first_line bs).
  assert (l ≠ []) as Hl.
  { intros E. apply first_line_nil in E. done. }
  assert (0 < length l ≤ length bs)%nat as Hlen.
  { split; [destruct l; [done|simpl; lia]|apply first_line_length]. }
  pose proof (first_line_prefix bs) as Hpre. fold l in Hpre.
  assert (∀ i b, l !! i = Some b → bs !! i = Some b) as Hlook.
  { intros i b Hi. rewrite Hpre. by apply lookup_app_l_Some. }
  destruct (is_sentinel (line_text l)).
  - simpl. destruct (first_line_end bs) as [E|(b & Hb & Hnl)].
    + left. fold l in E. by rewrite E.
    + right. exists b. fold l in Hb. split; [by apply Hlook|]. split; [done|lia].
  - destruct (IH (drop (length l) bs)) as [E|(b & Hb & Hnl & Hpos)].
    + rewrite length_drop. lia.
    + left. destruct (scan (lines (drop (length l) bs))) as [hl n].
      simpl in *. rewrite length_drop in E. lia.
    + right. destruct (scan (lines (drop (length l) bs))) as [hl n].
      simpl in *. exists b. rewrite lookup_drop in Hb.
      split; [|split; [done|lia]].
      by replace (length l + n - 1)%nat with (length l + (n - 1))%nat by lia.
Qed.

(** X12.  The data segment of a report starts at a line boundary: either at
    the end of the file or right after a line feed. *)
Theorem data_starts_at_line_boundary (py_int : str → option Z)
    (data : list byte) (r : report) :
  analyze_pcd_file py_int (Some data) = Done r →
  r_data_start r = r_file_size r
  ∨ (0 < r_data_start r
     ∧ ∃ b, data !! Z.to_nat (r_data_start r - 1) = Some b
            ∧ is_newline b = true).
Proof.
  intros Hdone.
  apply analyze_done in Hdone as (header_info & _ & Hdone).
  apply analyze_parsed_done in Hdone as (_ & Hsize & _ & _ & Hstart & _).
  rewrite read_header_scan in Hstart. unfold tell in Hstart.
  simpl in Hstart. rewrite Hsize, Hstart. unfold getsize.
  destruct (scan_boundary (S (length data)) data ltac:(lia))
    as [E|(b & Hb & Hnl & Hpos)].
  - left. by rewrite E.
  - right. split; [lia|]. exists b. split; [|done].
    by replace (Z.to_nat (Z.of_nat (scan (lines data)).2 - 1))
      with ((scan (lines data)).2 - 1)%nat by lia.
Qed.

(** * The port searches of server.py and run.py *)

Lemma find_port_in_seqZ (can_bind : Z → bool) (n : nat) (lo : Z) :
  first_granted can_bind lo (lo + Z.of_nat n)
    (find_port_in can_bind (seqZ lo (Z.of_nat n))).
Proof.
  revert lo. induction n as [|n IH]; intros lo.
  - simpl. intros q Hq. lia.
  - rewrite seqZ_cons by lia. simpl find_port_in.
    replace (Z.pred (Z.of_nat (S n))) with (Z.of_nat n) by lia.
    specialize (IH (Z.succ lo)).
    destruct (try_bind can_bind lo) eqn:Hlo.
    + simpl. split; [lia|]. split; [done|]. intros q Hq. lia.
    + destruct (find_port_in can_bind (seqZ (Z.succ lo) (Z.of_nat n)))
        as [p| |]; simpl in *.
      * destruct IH as (Hp & Hb & Hq). split; [lia|]. split; [done|].
        intros q Hql. destruct (decide (q = lo)) as [->|]; [done|].
        apply Hq. lia.
      * intros q Hql. destruct (decide (q = lo)) as [->|]; [done|].
        apply IH. lia.
      * destruct IH as (p & Hp & Hb & Hq). exists p.
        split; [lia|]. split; [done|].
        intros q Hql. destruct (decide (q = lo)) as [->|]; [done|].
        apply Hq. lia.
    + simpl. exists lo. split; [lia|]. split; [done|]. intros q Hq. lia.
Qed.

Lemma try_bind_in_range (can_bind : Z → bool) (port : Z) :
  0 ≤ port ≤ 65535 → try_bind can_bind port ≠ OutOfRange.
Proof.
  intros H. unfold try_bind.
  destruct (Z.ltb_spec port 0); [lia|].
  destruct (Z.ltb_spec 65535 port); [lia|].
  simpl. by destruct (can_bind port).
Qed.

(** X13.  [find_available_port] tries the 100 ports from [start_port] on in
    increasing order and returns the lowest one that can be bound; it raises
    [RuntimeError] exactly when all 100 are refused.  When the range leaves
    0..65535 before a port was granted, the [OverflowError] of the socket
    module leaves the function instead; with the whole range inside
    0..65535 that does not happen. *)
Theorem find_available_port_lowest (can_bind : Z → bool) (start_port : Z) :
  first_granted can_bind start_port (start_port + 100)
    (find_available_port can_bind start_port)
  ∧ (0 ≤ start_port → start_port + 99 ≤ 65535 →
     find_available_port can_bind start_port ≠ PortError).
Proof.
  pose proof (find_port_in_seqZ can_bind 100 start_port) as H.
  change (Z.of_nat 100) with 100 in H. split; [exact H|].
  intros Hlo Hhi E. unfold find_available_port in *. rewrite E in H.
  destruct H as (p & Hp & Hb & _).
  by apply (try_bind_in_range can_bind p ltac:(lia)).
Qed.

(** The loop of run.py at [port], with a round for every port up to
    [original_port + 50]. *)
Lemma start_server_loop_ports (can_bind : Z → bool) (original_port : Z)
    (fuel : nat) (port : Z) :
  original_port ≤ port ≤ original_port + 50 →
  original_port + 50 - port < Z.of_nat fuel →
  ∃ s, start_server_loop fuel can_bind original_port port = Some s
       ∧ first_granted can_bind port (original_port + 51) s.
Proof.
  revert port. induction fuel as [|fuel IH]; intros port Hport Hfuel; [lia|].
  simpl. destruct (try_bind can_bind port) eqn:Hb.
  - eexists. split; [done|]. simpl. split; [lia|]. split; [done|].
    intros q Hq. lia.
  - destruct (Z.gtb_spec (port + 1) (original_port + 50)) as [Hlast|Hmore].
    + eexists. split; [done|]. simpl. intros q Hq.
      by replace q with port by lia.
    + destruct (IH (port + 1)) as (s & Hs & Hfirst); [lia|lia|].
      exists s. split; [done|].
      destruct s as [p| |]; simpl in *.
      * destruct Hfirst as (Hp & Hbp & Hq). split; [lia|]. split; [done|].
        intros q Hql. destruct (decide (q = port)) as [->|]; [done|].
        apply Hq. lia.
      * intros q Hql. destruct (decide (q = port)) as [->|]; [done|].
        apply Hfirst. lia.
      * destruct Hfirst as (p & Hp & Hbp & Hq). exists p.
        split; [lia|]. split; [done|].
        intros q Hql. destruct (decide (q = port)) as [->|]; [done|].
        apply Hq. lia.
  - eexists. split; [done|]. simpl. exists port. split; [lia|].
    split; [done|]. intros q Hq. lia.
Qed.

(** X14.  The search loop of [start_server] ends after at most 51 rounds.
    It tries the ports from the given one up to and including the given one
    plus 50, in increasing order, and stops at the lowest that can be bound;
    it gives up exactly when all 51 are refused.  With the whole range inside
    0..65535 no [OverflowError] arises. *)
Theorem start_server_search_lowest (can_bind : Z → bool) (port : Z) :
  is_Some (start_server_loop 51 can_bind port port)
  ∧ first_granted can_bind port (port + 51)
      (start_server_search can_bind port)
  ∧ (0 ≤ port → port + 50 ≤ 65535 →
     start_server_search can_bind port ≠ PortError).
Proof.
  destruct (start_server_loop_ports can_bind port 51 port ltac:(lia)
              ltac:(lia)) as (s & Hs & Hfirst).
  unfold start_server_search. rewrite Hs. simpl.
  split; [by eexists|]. split; [done|].
  intros Hlo Hhi ->. destruct Hfirst as (p & Hp & Hb & _).
  by apply (try_bind_in_range can_bind p ltac:(lia)).
Qed.

(** * The further properties on sample inputs *)

Lemma data_segment_within_file_witness :
  r_file_size xyz_report = getsize (xyz_file "binary")
  ∧ 0 ≤ r_data_start xyz_report ≤ r_file_size xyz_report
  ∧ 0 ≤ r_data_size xyz_report
  ∧ r_data_start xyz_report + r_data_size xyz_report
    = r_file_size xyz_report.
Proof.
  refine (data_segment_within_file int_ascii (xyz_file "binary") xyz_report
            _); by_computation.
Defined.

Lemma short_header_reads_nothing_witness :
  ∃ r,
    analyze_pcd_file int_ascii (Some short_header_file) = Done r
    ∧ r_data_start r = r_file_size r
    ∧ r_data_size r = 0
    ∧ (r_points r = None ∨ r_points r = Some ([], None)).
Proof.
  eexists.
  assert (analyze_pcd_file int_ascii (Some short_header_file) = Done _)
    as Hdone by by_computation.
  destruct (short_header_reads_nothing int_ascii short_header_file _
              ltac:(by_computation) Hdone) as (_ & Hstart & Hsize & Hpoints).
  split; [exact Hdone|]. split; [exact Hstart|]. split; [exact Hsize|].
  exact (Hpoints 4 eq_refl eq_refl).
Defined.

Lemma sample_reader_at_most_three_witness :
  (length xyz_records ≤ 3)%nat
  ∧ Z.of_nat (length xyz_records)
    ≤ Z.max 0 (declared_points (r_header_info xyz_report))
  ∧ Z.of_nat (length xyz_records) * 12 ≤ r_data_size xyz_report.
Proof.
  destruct (sample_reader_at_most_three int_ascii (xyz_file "binary")
              xyz_report xyz_records None ltac:(by_computation) eq_refl)
    as (Hthree & Hdeclared & Hrows).
  split; [exact Hthree|]. split; [exact Hdeclared|].
  exact (Hrows 12 eq_refl ltac:(lia)).
Defined.

Lemma decoded_values_in_range_witness :
  ∃ fs, fields (r_header_info xyz_report) = Some fs
        ∧ (3 ≤ length fs)%nat
        ∧ (lit "y" ∈ fs ∧ value_ok (VFloat 1073741824)).
Proof.
  destruct (decoded_values_in_range int_ascii (xyz_file "binary") xyz_report
              xyz_records None
              [ (lit "x", VFloat 1065353216); (lit "y", VFloat 1073741824);
                (lit "z", VFloat 1077936128) ]
              ltac:(by_computation) eq_refl ltac:(apply list_elem_of_here))
    as (fs & Hfs & Hlen & Hvalues).
  exists fs. split; [exact Hfs|]. split; [exact Hlen|].
  apply Hvalues. apply list_elem_of_further, list_elem_of_here.
Defined.

Lemma header_lines_are_stripped_witness : isspace 122%N = false.
Proof.
  refine (header_lines_are_stripped (xyz_file "binary") (lit "FIELDS x y z")
            122%N _ _).
  - by_computation.
  - right. by_computation.
Defined.

Lemma sentinel_sets_encoding_witness :
  data_type (r_header_info xyz_report) = Some (lit "binary")
  ∧ r_format xyz_report = Binary.
Proof.
  destruct (sentinel_sets_encoding int_ascii (xyz_file "binary") xyz_report
              (lit "DATA binary") ltac:(by_computation) eq_refl
              ltac:(by_computation))
    as [(H & _)|[(_ & Htype & Hformat & _)|(H & _)]].
  - discriminate H.
  - split; [exact Htype | exact Hformat].
  - discriminate H.
Defined.

Lemma stride_independent_of_field_order_witness :
  ∃ stride rows rows',
    row_geometry (mixed_info false) = Ok (Some stride, rows)
    ∧ row_geometry (mixed_info true) = Ok (Some stride, rows')
    ∧ stride = 5.
Proof.
  destruct (stride_independent_of_field_order (mixed_info false)
              (mixed_info true) [lit "x"; lit "i"] [lit "i"; lit "x"]
              [4; 1] [1; 1] [1; 4] [1; 1]
              eq_refl eq_refl eq_refl eq_refl eq_refl
              eq_refl eq_refl eq_refl eq_refl eq_refl
              ltac:(apply perm_swap))
    as (stride & rows & rows' & H & H' & Hstride & _).
  exists stride, rows, rows'. split; [exact H|]. split; [exact H'|].
  exact Hstride.
Defined.

Lemma directive_order_is_irrelevant_witness :
  parse_header int_ascii [lit "SIZE 4 1"; lit "FIELDS x i"]
  = Ok (set_sizes [4; 1] (set_fields [lit "x"; lit "i"] empty_info)).
Proof.
  refine (directive_order_is_irrelevant int_ascii
            [lit "FIELDS x i"; lit "SIZE 4 1"] _ _ _ _ _).
  - apply perm_swap.
  - intros []; vm_compute; lia.
  - by_computation.
Defined.

Lemma malformed_directive_raises_witness :
  analyze_pcd_file int_ascii (Some bad_width_file) = Raised IndexError.
Proof.
  refine (proj1 (malformed_directive_raises int_ascii bad_width_file
                   [lit "FIELDS x"] [lit "DATA ascii"] (lit "WIDTH")
                   (set_fields [lit "x"] empty_info) WIDTH _ _ _) _ _);
    by_computation.
Defined.


Lemma row_geometry_completion_witness :
  (∃ fs ss cs,
     fields (xyz_info "binary") = Some fs
     ∧ sizes (xyz_info "binary") = Some ss
     ∧ counts (xyz_info "binary") = Some cs
     ∧ (length fs ≤ min (length ss) (length cs))%nat
     ∧ 12 = Zsum (spans ss cs)
     ∧ [(lit "x", 0, 4); (lit "y", 4, 4); (lit "z", 8, 4)]
       = layout fs (spans ss cs) 0
     ∧ length [(lit "x", 0, 4); (lit "y", 4, 4); (lit "z", 8, 4)]
       = length fs)
  ∧ ∃ e, row_geometry
           (set_counts [1] (set_sizes [4] empty_info)) = Raise e.
Proof.
  split.
  - refine (proj1 (proj2 (row_geometry_completion (xyz_info "binary")))
              12 [(lit "x", 0, 4); (lit "y", 4, 4); (lit "z", 8, 4)] _).
    by_computation.
  - refine (proj2 (proj2 (row_geometry_completion
                            (set_counts [1] (set_sizes [4] empty_info))))
              [4] [1] eq_refl eq_refl _).
    by left.
Defined.

Lemma data_starts_at_line_boundary_witness :
  r_data_start xyz_report = r_file_size xyz_report
  ∨ (0 < r_data_start xyz_report
     ∧ ∃ b, xyz_file "binary" !! Z.to_nat (r_data_start xyz_report - 1)
            = Some b
            ∧ is_newline b = true).
Proof.
  refine (data_starts_at_line_boundary int_ascii (xyz_file "binary")
            xyz_report _); by_computation.
Defined.

Lemma find_available_port_lowest_witness :
  find_available_port busy_below_8083 8080 ≠ PortError.
Proof.
  refine (proj2 (find_available_port_lowest busy_below_8083 8080) _ _); lia.
Defined.

Lemma start_server_search_lowest_witness :
  start_server_search busy_below_8083 8080 ≠ PortError.
Proof.
  refine (proj2 (proj2 (start_server_search_lowest busy_below_8083 8080))
            _ _); lia.
Defined.

(** * Further properties, continued *)

(** ** Blanks around a header line *)

Lemma decode_ignore_ascii (bs : list byte) :
  Forall (λ b, (Byte.to_N b < 128)%N) bs →
  decode_ignore bs = map Byte.to_N bs.
Proof.
  induction 1 as [|b bs Hb Hbs IH]; [done|].
  simpl. destruct (N.ltb_spec (Byte.to_N b) 128); [|lia].
  by rewrite IH.
Qed.

Lemma lstrip_blanks (w s : str) :
  Forall (λ c, isspace c = true) w → lstrip (w ++ s) = lstrip s.
Proof.
  induction 1 as [|c w Hc Hw IH]; [done|]. simpl. by rewrite Hc.
Qed.

Lemma lstrip_text (s : str) (c : char) :
  list.head s = Some c → isspace c = false → lstrip s = s.
Proof.
  destruct s as [|c' s]; [done|]. simpl. intros [= ->] Hc. by rewrite Hc.
Qed.

Lemma strip_blanks (w1 w2 t : str) (c1 c2 : char) :
  Forall (λ c, isspace c = true) w1 →
  Forall (λ c, isspace c = true) w2 →
  list.head t = Some c1 → isspace c1 = false →
  list.last t = Some c2 → isspace c2 = false →
  strip (w1 ++ t ++ w2) = t.
Proof.
  intros Hw1 Hw2 Hc1 Hs1 Hc2 Hs2. unfold strip, rstrip.
  rewrite (lstrip_blanks w1 (t ++ w2) Hw1).
  rewrite (lstrip_text (t ++ w2) c1); [|by rewrite head_app, Hc1|done].
  rewrite rev_app_distr.
  rewrite (lstrip_blanks (rev w2) (rev t)).
  - rewrite (lstrip_text (rev t) c2); [by rewrite rev_involutive| |done].
    apply last_Some in Hc2 as [t' ->]. by rewrite rev_app_distr.
  - apply Forall_forall. intros c Hc. apply in_rev in Hc.
    rewrite Forall_forall in Hw2. by apply Hw2.
Qed.

Lemma is_blank_ascii (w : list byte) :
  Forall (λ b, is_blank b = true) w →
  Forall (λ b, (Byte.to_N b < 128)%N) w
  ∧ Forall (λ c, isspace c = true) (map Byte.to_N w).
Proof.
  induction 1 as [|b w Hb Hw [IH1 IH2]]; [by split; constructor|].
  unfold is_blank in Hb. apply andb_true_iff in Hb as [Hlt Hsp].
  apply N.ltb_lt in Hlt.
  split; simpl; by constructor.
Qed.

(** X15.  Blanks do not hide a sentinel: a line made of ASCII white space
    (blanks, tabs, a carriage return before the line feed, ...), one of the
    three sentinel texts, and ASCII white space again is kept as that
    sentinel and ends the header. *)
Theorem sentinel_tolerates_blanks (w1 w2 : list byte) (name : string) :
  Forall (λ b, is_blank b = true) w1 →
  Forall (λ b, is_blank b = true) w2 →
  name ∈ ["DATA binary_compressed"; "DATA binary"; "DATA ascii"]%string →
  line_text (w1 ++ bytes_of name ++ w2) = lit name
  ∧ is_sentinel (line_text (w1 ++ bytes_of name ++ w2)) = true.
Proof.
  intros [Ha1 Hs1]%is_blank_ascii [Ha2 Hs2]%is_blank_ascii Hname.
  assert (Forall (λ b, (Byte.to_N b < 128)%N) (bytes_of name)
          ∧ map Byte.to_N (bytes_of name) = lit name
          ∧ list.head (lit name) = Some 68%N
          ∧ (∃ c, list.last (lit name) = Some c ∧ isspace c = false)
          ∧ is_sentinel (lit name) = true)
    as (Ha & Hlit & Hhead & (c & Hlast & Hc) & Hsent).
  { repeat (apply elem_of_cons in Hname as [->|Hname];
            [split; [repeat constructor|];
             split; [reflexivity|]; split; [reflexivity|];
             split; [eexists; split; reflexivity|reflexivity]|]).
    by apply elem_of_nil in Hname. }
  assert (line_text (w1 ++ bytes_of name ++ w2) = lit name) as Htext.
  { unfold line_text. rewrite decode_ignore_ascii.
    - rewrite !map_app, Hlit.
      by apply (strip_blanks _ _ _ 68%N c).
    - by rewrite !Forall_app. }
  by rewrite Htext.
Qed.

(** ** The payload and the header *)

Lemma lines_nil (bs : list byte) : lines bs = [] → bs = [].
Proof.
  destruct bs as [|b bs]; [done|]. simpl.
  destruct (is_newline b); [done|]. by destruct (lines bs).
Qed.

(** Bytes after a line feed do not change the lines before it. *)
Lemma lines_app_newline (a b : list byte) (nl : byte) :
  is_newline nl = true →
  lines ((a ++ [nl]) ++ b) = lines (a ++ [nl]) ++ lines b.
Proof.
  intros Hnl. induction a as [|x a IH]; simpl.
  - by rewrite Hnl.
  - destruct (is_newline x); [by rewrite IH|].
    rewrite IH.
    destruct (lines (a ++ [nl])) as [|l ls] eqn:E; [|done].
    apply lines_nil in E. by destruct a.
Qed.

Lemma scan_app_sentinel (r1 r2 : list (list byte)) :
  (∃ l, l ∈ map line_text r1 ∧ l ∈ sentinels) →
  scan (r1 ++ r2) = scan r1.
Proof.
  induction r1 as [|x r1 IH]; intros (l & Hl & Hs).
  - by apply elem_of_nil in Hl.
  - simpl. destruct (is_sentinel (line_text x)) eqn:Hx; [done|].
    rewrite IH; [done|]. exists l. split; [|done].
    simpl in Hl. apply elem_of_cons in Hl as [->|Hl]; [|done].
    apply is_sentinel_spec in Hs. congruence.
Qed.

(** X16.  What follows the header does not influence it.  For a file whose
    first bytes end with a line feed and contain a sentinel line, the header
    lines, the parsed [header_info], the stride, the offsets, the format
    note and the data start are the same whatever the payload after those
    bytes is; the report exists for one payload if it exists for the
    other. *)
Theorem header_ignores_payload (py_int : str → option Z)
    (front payload payload' : list byte) (nl : byte) (r : report) :
  is_newline nl = true →
  (∃ l, l ∈ map line_text (lines (front ++ [nl])) ∧ l ∈ sentinels) →
  analyze_pcd_file py_int (Some ((front ++ [nl]) ++ payload)) = Done r →
  ∃ r',
    analyze_pcd_file py_int (Some ((front ++ [nl]) ++ payload')) = Done r'
    ∧ r_header_lines r' = r_header_lines r
    ∧ r_header_info r' = r_header_info r
    ∧ r_row_size r' = r_row_size r
    ∧ r_offsets r' = r_offsets r
    ∧ r_format r' = r_format r
    ∧ r_data_start r' = r_data_start r
    ∧ r_data_start r ≤ Z.of_nat (length (front ++ [nl])).
Proof.
  intros Hnl Hsent Hdone.
  assert (∀ rest,
            (read_header (open ((front ++ [nl]) ++ rest))).1
            = (scan (lines (front ++ [nl]))).1
            ∧ tell (read_header (open ((front ++ [nl]) ++ rest))).2
              = Z.of_nat (scan (lines (front ++ [nl]))).2) as Hhead.
  { intros rest. rewrite read_header_scan.
    rewrite (lines_app_newline front rest nl Hnl).
    by rewrite (scan_app_sentinel _ _ Hsent). }
  apply analyze_done in Hdone as (header_info & Hparse & Hdone).
  pose proof (analyze_parsed_done _ _ _ _ _ Hdone)
    as (Hgeom & _ & Hlines & Hinfo & Hstart & _ & Hformat & _).
  destruct (Hhead payload) as [Hl Ht]. destruct (Hhead payload') as [Hl' Ht'].
  rewrite Hl in Hparse. rewrite <- Hl' in Hparse.
  rewrite (analyze_parsed_ok py_int _ header_info Hparse).
  unfold analyze_parsed. rewrite Hgeom. eexists. split; [done|].
  cbn [r_header_lines r_header_info r_row_size r_offsets r_format
         r_data_start].
  rewrite Hlines, Hinfo, Hformat, Hstart, Hl, Hl', Ht, Ht'.
  repeat (split; [done|]).
  pose proof (scan_consumed (lines (front ++ [nl]))) as Hc.
  rewrite lines_concat in Hc. lia.
Qed.

(** ** Entries the analysis does not use *)

(** X17.  Only the FIELDS, SIZE, COUNT, POINTS and DATA entries of
    [header_info] are used after parsing: two headers that agree on them,
    whatever their TYPE, WIDTH and HEIGHT entries, give the same stride,
    offsets, data segment, format note and sample points, and the same
    exception if there is one.  In particular the number of rows read is
    taken from POINTS alone, never from WIDTH and HEIGHT. *)
Theorem type_width_height_are_unused (file_size : Z)
    (header_lines : list str) (h h' : hinfo) (f : file) :
  fields h = fields h' → sizes h = sizes h' → counts h = counts h' →
  points h = points h' → data_type h = data_type h' →
  match analyze_parsed file_size header_lines h f,
        analyze_parsed file_size header_lines h' f with
  | Done r, Done r' =>
    r_row_size r = r_row_size r' ∧ r_offsets r = r_offsets r'
    ∧ r_data_start r = r_data_start r' ∧ r_data_size r = r_data_size r'
    ∧ r_format r = r_format r' ∧ r_points r = r_points r'
  | Raised e, Raised e' => e = e'
  | _, _ => False
  end.
Proof.
  intros Hf Hs Hc Hp Hd. unfold analyze_parsed.
  rewrite (row_geometry_ext h h' Hf Hs Hc).
  destruct (row_geometry h') as [[row_size offsets]|e]; [|done].
  cbn. unfold format_of, reads_points, data_type_is. rewrite Hd.
  repeat (split; [done|]).
  by rewrite (read_points_ext h h' _ _ _ _ Hf Hs Hc Hp).
Qed.

(** ** A negative stride *)

(** X18.  A stride below -1 makes the first read fail: when the sample
    reader is entered with at least one declared point, it prints no point
    and its handler reports the error of [f.read], [ValueError], or
    [OverflowError] for a stride that does not fit 64 bits. *)
Theorem negative_stride_is_a_read_error (py_int : str → option Z)
    (data : list byte) (r : report) (row_size : Z) :
  analyze_pcd_file py_int (Some data) = Done r →
  r_row_size r = Some row_size →
  row_size < -1 →
  is_Some (r_points r) →
  0 < declared_points (r_header_info r) →
  r_points r
  = Some ([], Some (if row_size <? - 2 ^ 63 then OverflowError
                    else ValueError)).
Proof.
  intros Hdone Hrow Hneg Hentered Hdeclared.
  pose proof (data_segment_bounds := read_header_cursor data).
  destruct data_segment_bounds as [_ Hpos].
  apply analyze_done in Hdone as (header_info & _ & Hdone).
  apply analyze_parsed_done in Hdone
    as (_ & _ & _ & Hinfo & _ & _ & _ & Hpoints).
  rewrite Hinfo in Hdeclared. rewrite Hpoints in Hentered |- *.
  destruct (reads_points header_info); [|by destruct Hentered].
  f_equal. unfold read_points, range. rewrite Hrow.
  destruct (Z.to_nat (Z.min 3 (declared_points header_info))) as [|k] eqn:Hk;
    [lia|].
  simpl.
  destruct (Z.gtb_spec
              (tell (read_header (open data)).2 + (Z.of_nat 0 + 1) * row_size)
              (getsize data)) as [Hpast|_].
  { unfold tell, getsize in Hpast. lia. }
  unfold read.
  destruct (Z.ltb_spec row_size (- 2 ^ 63)); [done|].
  destruct (Z.ltb_spec row_size (-1)); [done|lia].
Qed.

Lemma sentinel_tolerates_blanks_witness :
  line_text (bytes_of "  " ++ bytes_of "DATA binary"
             ++ [carriage_return; line_feed])
  = lit "DATA binary"
  ∧ is_sentinel (line_text (bytes_of "  " ++ bytes_of "DATA binary"
                            ++ [carriage_return; line_feed]))
    = true.
Proof.
  refine (sentinel_tolerates_blanks (bytes_of "  ")
            [carriage_return; line_feed] "DATA binary" _ _ _).
  - by repeat constructor.
  - by repeat constructor.
  - apply list_elem_of_further, list_elem_of_here.
Defined.

Lemma header_ignores_payload_witness :
  ∃ r',
    analyze_pcd_file int_ascii (Some ((xyz_front ++ [line_feed]) ++ []))
    = Done r'
    ∧ r_header_info r' = r_header_info xyz_report
    ∧ r_row_size r' = r_row_size xyz_report
    ∧ r_data_start r' = r_data_start xyz_report.
Proof.
  destruct (header_ignores_payload int_ascii xyz_front xyz_payload []
              line_feed xyz_report eq_refl)
    as (r' & Hdone & _ & Hinfo & Hrow & _ & _ & Hstart & _).
  - exists (lit "DATA binary"). split; by_computation.
  - by_computation.
  - exists r'. split; [exact Hdone|]. split; [exact Hinfo|].
    split; [exact Hrow|exact Hstart].
Defined.

Lemma type_width_height_are_unused_witness :
  match analyze_parsed 81 [] (xyz_info "binary")
          {| content := xyz_file "binary"; pos := 57 |},
        analyze_parsed 81 [] xyz_info_full
          {| content := xyz_file "binary"; pos := 57 |} with
  | Done r, Done r' =>
    r_row_size r = r_row_size r' ∧ r_offsets r = r_offsets r'
    ∧ r_data_start r = r_data_start r' ∧ r_data_size r = r_data_size r'
    ∧ r_format r = r_format r' ∧ r_points r = r_points r'
  | Raised e, Raised e' => e = e'
  | _, _ => False
  end.
Proof.
  exact (type_width_height_are_unused 81 [] (xyz_info "binary") xyz_info_full
           {| content := xyz_file "binary"; pos := 57 |}
           eq_refl eq_refl eq_refl eq_refl eq_refl).
Defined.

Lemma negative_stride_is_a_read_error_witness :
  ∃ r,
    analyze_pcd_file int_ascii (Some negative_size_file) = Done r
    ∧ r_row_size r = Some (-4)
    ∧ r_points r = Some ([], Some ValueError).
Proof.
  eexists.
  assert (analyze_pcd_file int_ascii (Some negative_size_file) = Done _)
    as Hdone by by_computation.
  split; [exact Hdone|]. split; [reflexivity|].
  refine (negative_stride_is_a_read_error int_ascii negative_size_file _ (-4)
            Hdone eq_refl _ _ _).
  - lia.
  - by eexists.
  - by_computation.
Defined.
